(** * Free Bosons Lie conformal algebra: the constructor and its accessors

    A shallow embedding of
    [sage/algebras/lie_conformal_algebras/free_bosons_lie_conformal_algebra.py]:
    the class [FreeBosonsLieConformalAlgebra], its constructor [__init__]
    (validation of the Gram matrix, default resolution, the dictionary
    comprehension that builds the structure-constant table [bosondict], the
    call of the parent constructor) and its two methods [_repr_] and
    [gram_matrix].  The constructor is modelled on matrix values and, for
    what happens to the Gram matrix afterwards, in a store of matrix objects
    where [self._gram_matrix] is a reference.

    Python exceptions are values of an error monad, Python dictionaries are
    finite maps, and the collaborators that live outside this module
    (matrices, matrix spaces, the naming normalisation, the parent class) are
    either small models written from their contract or parameters of the
    development.  [ngens] ranges over the natural numbers: what a negative
    [ngens] does is decided inside [MatrixSpace] and [identity_matrix]. *)

From stdpp Require Import gmap strings list pretty.

Set Default Proof Using "Type".

(** ** Exceptions and the error monad *)

Inductive exception :=
  | ValueError (msg : string)
  | IndexError (msg : string).

Inductive Result (A : Type) :=
  | OK (a : A)
  | Raise (e : exception).
Arguments OK {A} a.
Arguments Raise {A} e.

Global Instance Result_ret : MRet Result := λ A a, OK a.
Global Instance Result_bind : MBind Result := λ A B f r,
  match r with
  | OK a => f a
  | Raise e => Raise e
  end.

(** [for x in l: acc = f(acc, x)], stopping at the first exception. *)
Fixpoint foldM {A B} (f : B → A → Result B) (l : list A) (acc : B) : Result B :=
  match l with
  | [] => OK acc
  | x :: l' => acc' ← f acc x; foldM f l' acc'
  end.

(** The computation returns, it does not raise. *)
Definition succeeds {A} (r : Result A) : Prop := ∃ a, r = OK a.

(** ** Labels

    The members of an index set are Python objects used as dictionary keys;
    the ones that occur are strings (generator names) and integers. *)

Inductive Label :=
  | LStr (s : string)
  | LInt (z : Z).

Global Instance Label_eq_dec : EqDecision Label.
Proof. solve_decision. Defined.

Definition Label_to_sum (l : Label) : string + Z :=
  match l with LStr s => inl s | LInt z => inr z end.
Definition Label_of_sum (x : string + Z) : Label :=
  match x with inl s => LStr s | inr z => LInt z end.

Global Instance Label_countable : Countable Label.
Proof.
  refine (inj_countable' Label_to_sum Label_of_sum _).
  by intros [].
Defined.

(** The structure-constant table:
    [{(i, j): {weight: {(central_label, 0): coefficient}}}]. *)
Abbreviation Table S := (gmap (Label * Label) (gmap Z (gmap (string * Z) S))).

(** An enumerated index set: its labels in enumeration order. *)
Abbreviation IndexSet := (list Label).

(** The [names] argument: a comma-separated string or a tuple of strings. *)
Inductive NamesArg :=
  | NamesStr (s : string)
  | NamesTuple (l : list string).

(** Modelled from the spec: [index_set.rank(i)] of an enumerated set (absent
    from this module): the position of [i] in the enumeration, each label
    being "mapped bijectively to an integer rank 0..n-1"; a label that is not
    in the set has no rank. *)
Fixpoint IndexSet_rank (index_set : IndexSet) (i : Label) : Result nat :=
  match index_set with
  | [] => Raise (ValueError "not in the enumerated set")
  | x :: rest =>
      if decide (x = i) then OK 0
      else r ← IndexSet_rank rest i; OK (S r)
  end.

Section FreeBosons.

(** The universe of coefficients; a ring is a part of it. *)
Context {Scalar : Type} `{!EqDecision Scalar}.

(** Modelled from the spec: the ground ring (a Sage parent, absent from this
    module), "opaque to this component beyond membership testing".  The
    constructor also needs its zero and its one, for [identity_matrix], and
    [_repr_] prints it. *)
Record Ring := {
  ring_contains : Scalar → bool;
  ring_zero : Scalar;
  ring_one : Scalar;
  ring_repr : string;
}.

(** Modelled from the spec: a Sage matrix (absent from this module), as far as
    the constructor uses it: its dimensions and its entries, read through
    [Matrix_getitem], which checks the range as Sage does. *)
Record Matrix := {
  nrows : nat;
  ncols : nat;
  entry : nat → nat → Scalar;
}.

(** [M.dimensions()] *)
Definition dimensions (M : Matrix) : nat * nat := (nrows M, ncols M).

(** [M[r, c]] for non-negative [r] and [c]. *)
Definition Matrix_getitem (M : Matrix) (r c : nat) : Result Scalar :=
  if bool_decide (r < nrows M) && bool_decide (c < ncols M)
  then OK (entry M r c)
  else Raise (IndexError "matrix index out of range").

(** All pairs [(i, j)] with [i < n] and [j < m] satisfy [P]. *)
Definition forall_entries (n m : nat) (P : nat → nat → bool) : bool :=
  forallb (λ i, forallb (P i) (seq 0 m)) (seq 0 n).

(** Modelled from the spec: [M in MatrixSpace(R, n, m)], the "matrix-space
    membership testing" of the matrix framework: the dimensions are [n] and
    [m] and every entry is an element of [R]. *)
Definition MatrixSpace_contains (R : Ring) (n m : nat) (M : Matrix) : bool :=
  bool_decide (nrows M = n) && bool_decide (ncols M = m)
  && forall_entries (nrows M) (ncols M) (λ i j, ring_contains R (entry M i j)).

(** Modelled from the spec: [M.is_symmetric()], the "symmetry testing" of
    the matrix framework: [M] is square and [M[i, j] == M[j, i]] throughout. *)
Definition is_symmetric (M : Matrix) : bool :=
  bool_decide (nrows M = ncols M)
  && forall_entries (nrows M) (ncols M)
       (λ i j, bool_decide (entry M i j = entry M j i)).

(** Modelled from the spec: the "identity-matrix construction" of the matrix
    framework, as the constructor calls it, [identity_matrix(R, ngens, ngens)]:
    "the identity matrix of size [ngens]". *)
Definition identity_matrix (R : Ring) (n : nat) : Matrix :=
  {| nrows := n; ncols := n;
     entry := λ i j, if bool_decide (i = j) then ring_one R else ring_zero R |}.

(** Sage's [M1 == M2] on matrices: same shape, same entries. *)
Definition Matrix_eq (M1 M2 : Matrix) : Prop :=
  nrows M1 = nrows M2 ∧ ncols M1 = ncols M2 ∧
  ∀ i j, i < nrows M1 → j < ncols M1 → entry M1 i j = entry M2 i j.

(** The symmetric matrices, as a proposition. *)
Definition symmetric (M : Matrix) : Prop :=
  nrows M = ncols M ∧
  ∀ i j, i < nrows M → j < ncols M → entry M i j = entry M j i.

(** ** The collaborators taken as parameters *)

(** [str(M)] of a matrix, as the error message embeds it. *)
Variable matrix_str : Matrix → string.

(** [standardize_names_index_set(names=, index_set=, ngens=)] of
    [sage.structure.indexed_generators]: it returns the tuple of names (or
    [None]) and the enumerated index set, or raises. *)
Variable standardize_names_index_set :
  option NamesArg → option IndexSet → nat →
  Result (option (list string) * IndexSet).

(** ** The parent class *)

(** Modelled from the spec: the object built by the "generic graded algebra
    from a structure-constant table constructor"
    [GradedLieConformalAlgebra.__init__] (absent from this module), "holding
    the table, the resolved generator names, and the central element". *)
Record GradedLieConformalAlgebra := {
  base_ring : Ring;
  s_coeff : Table Scalar;
  names : option (list string);
  latex_names : option (list string);
  index_set : IndexSet;
  central_elements : list string;
}.

Definition GradedLieConformalAlgebra_init (R : Ring) (s_coeff : Table Scalar)
    (names latex_names : option (list string)) (index_set : IndexSet)
    (central_elements : list string) : GradedLieConformalAlgebra :=
  {| base_ring := R; s_coeff := s_coeff; names := names;
     latex_names := latex_names; index_set := index_set;
     central_elements := central_elements |}.

(** [str(self.gens())], a method of the parent class. *)
Variable gens_str : GradedLieConformalAlgebra → string.

(** ** The class [FreeBosonsLieConformalAlgebra] *)

Record FreeBosonsLieConformalAlgebra := {
  super : GradedLieConformalAlgebra;
  _gram_matrix : Matrix;
}.

(** The [ValueError] of lines 119-120 and 122-123:
    ["the gram_matrix should be a symmetric " +
     "{0} x {0} matrix, got {1}".format(ngens, gram_matrix)]. *)
Definition gram_matrix_error (ngens : nat) (gram_matrix : Matrix) : exception :=
  ValueError ("the gram_matrix should be a symmetric " +:+
              (pretty ngens +:+ " x " +:+ pretty ngens +:+ " matrix, got " +:+
               matrix_str gram_matrix)).

(** Lines 113-127: validation of a supplied Gram matrix, defaults otherwise.
    Returns the resolved [ngens] and [gram_matrix]. *)
Definition resolve_gram_matrix (R : Ring) (ngens : option nat)
    (gram_matrix : option Matrix) : Result (nat * Matrix) :=
  match gram_matrix with
  | Some gram_matrix =>
      let ngens :=
        match ngens with
        | None => (dimensions gram_matrix).1
        | Some ngens => ngens
        end in
      if negb (MatrixSpace_contains R ngens ngens gram_matrix)
      then Raise (gram_matrix_error ngens gram_matrix)
      else if negb (is_symmetric gram_matrix)
      then Raise (gram_matrix_error ngens gram_matrix)
      else OK (ngens, gram_matrix)
  | None =>
      let ngens :=
        match ngens with
        | None => 1
        | Some ngens => ngens
        end in
      OK (ngens, identity_matrix R ngens)
  end.

(** Lines 129-133: the default names, [names = 'alpha'] and
    [latex_names = tuple(r'\alpha_{%d}' % i for i in range(ngens)) + ('K',)],
    when neither [names] nor [index_set] is given. *)
Definition resolve_names (ngens : nat) (names : option NamesArg)
    (index_set : option IndexSet) : option NamesArg * option (list string) :=
  match names, index_set with
  | None, None =>
      (Some (NamesStr "alpha"),
       Some (((λ i : nat, "\alpha_{" +:+ pretty i +:+ "}") <$> seq 0 ngens)
             ++ ["K"]))
  | _, _ => (names, None)
  end.

(** The value expression of the comprehension of lines 137-139,
    [gram_matrix[index_set.rank(i), index_set.rank(j)]]. *)
Definition gram_entry (gram_matrix : Matrix) (index_set : IndexSet)
    (i j : Label) : Result Scalar :=
  r ← IndexSet_rank index_set i;
  c ← IndexSet_rank index_set j;
  Matrix_getitem gram_matrix r c.

(** [{1: {('K', 0): x}}] *)
Definition weight_one (x : Scalar) : gmap Z (gmap (string * Z) Scalar) :=
  {[1%Z := {[("K", 0%Z) := x]}]}.

(** One step of the comprehension: the key [(i, j)] gets its value. *)
Definition bosondict_item (gram_matrix : Matrix) (index_set : IndexSet)
    (d : Table Scalar) (i j : Label) : Result (Table Scalar) :=
  x ← gram_entry gram_matrix index_set i j;
  OK (<[(i, j) := weight_one x]> d).

(** Lines 137-139: [{(i, j): ... for i in index_set for j in index_set}]. *)
Definition bosondict (gram_matrix : Matrix) (index_set : IndexSet)
    : Result (Table Scalar) :=
  foldM (λ d i, foldM (λ d j, bosondict_item gram_matrix index_set d i j)
                      index_set d)
        index_set ∅.

(** What the table is to hold at the key [k]: the value of the comprehension
    at [k], when it has one. *)
Definition expected_item (gram_matrix : Matrix) (index_set : IndexSet)
    (k : Label * Label) : option (gmap Z (gmap (string * Z) Scalar)) :=
  match gram_entry gram_matrix index_set k.1 k.2 with
  | OK x => Some (weight_one x)
  | Raise _ => None
  end.

(** [FreeBosonsLieConformalAlgebra.__init__(self, R, ngens, gram_matrix,
    names, index_set)], lines 102-147. *)
Definition __init__ (R : Ring) (ngens : option nat)
    (gram_matrix : option Matrix) (names : option NamesArg)
    (index_set : option IndexSet) : Result FreeBosonsLieConformalAlgebra :=
  '(ngens, gram_matrix) ← resolve_gram_matrix R ngens gram_matrix;
  let '(names, latex_names) := resolve_names ngens names index_set in
  '(names, index_set) ← standardize_names_index_set names index_set ngens;
  bosondict ← bosondict gram_matrix index_set;
  let self := GradedLieConformalAlgebra_init R bosondict names latex_names
                index_set ["K"] in
  OK {| super := self; _gram_matrix := gram_matrix |}.

(** ** The methods

    A method takes [self] and returns its result and [self] as it leaves it. *)
Definition Method (A : Type) : Type :=
  FreeBosonsLieConformalAlgebra → A * FreeBosonsLieConformalAlgebra.

(** [_repr_], lines 149-159. *)
Definition _repr_ : Method string := λ self,
  ("The free Bosons Lie conformal algebra with generators " +:+
   gens_str (super self) +:+ " over " +:+ ring_repr (base_ring (super self)),
   self).

(** [gram_matrix], lines 161-173. *)
Definition gram_matrix : Method Matrix := λ self,
  (_gram_matrix self, self).

(** ** The Gram matrix as a shared object

    Modelled from the spec: the Gram matrix "is retained as a queryable
    attribute".  The matrix class is absent from this module; a Sage matrix
    is a mutable object, and the constructor does not copy the one it is
    given: line 147, [self._gram_matrix = gram_matrix], keeps the caller's
    reference, and [gram_matrix()] returns that reference (line 173).  The
    coefficients of the table are ring elements read while the constructor
    runs (line 138): the table holds them, not the matrix.  To tell the two
    apart the matrices live in a store, [gmap nat Matrix], from references to
    what each matrix holds now. *)

(** Modelled from the spec: [M[i, j] = x] on a matrix (absent from this
    module).  The entry is replaced when [(i, j)] is in range; otherwise the
    assignment raises [IndexError] and the matrix is as before. *)
Definition Matrix_setitem (M : Matrix) (i j : nat) (x : Scalar) : Matrix :=
  if bool_decide (i < nrows M) && bool_decide (j < ncols M)
  then {| nrows := nrows M; ncols := ncols M;
          entry := λ r c, if bool_decide (r = i) && bool_decide (c = j)
                          then x else entry M r c |}
  else M.

(** The object with its Gram matrix by reference: the parent part, which
    holds the table, and the reference kept in [self._gram_matrix]. *)
Record Instance := {
  instance_super : GradedLieConformalAlgebra;
  _gram_matrix_ref : nat;
}.

(** The constructor in a store.  A supplied [gram_matrix] is a reference [l]
    of the store: the constructor reads the matrix to validate it and to fill
    the table, and keeps [l].  Without [gram_matrix],
    [identity_matrix(R, ngens, ngens)] (line 127) is a new matrix, at a
    reference not in use.  A reference that the store does not hold cannot be
    passed in Python; the model refuses it. *)
Definition construct (σ : gmap nat Matrix) (R : Ring) (ngens : option nat)
    (gram_matrix : option nat) (names : option NamesArg)
    (index_set : option IndexSet) : Result (Instance * gmap nat Matrix) :=
  match gram_matrix with
  | Some l =>
      match σ !! l with
      | Some M =>
          self ← __init__ R ngens (Some M) names index_set;
          OK ({| instance_super := super self; _gram_matrix_ref := l |}, σ)
      | None => Raise (ValueError "no such matrix")
      end
  | None =>
      self ← __init__ R ngens None names index_set;
      let l := fresh (dom σ) in
      OK ({| instance_super := super self; _gram_matrix_ref := l |},
          <[l := _gram_matrix self]> σ)
  end.

(** What can happen once the object exists: a call of one of the two methods
    of the class, or an assignment [M[i, j] = x] by whoever holds the
    reference [l] of a matrix [M] (the caller that supplied the Gram matrix,
    or anyone who got it from [gram_matrix()]). *)
Inductive action :=
  | Call_repr
  | Call_gram_matrix
  | Assign (l i j : nat) (x : Scalar).

Inductive answer :=
  | Answer_str (s : string)
  | Answer_matrix (l : nat)
  | Answer_none.

(** One action on the object [self] in the store [σ]: [_repr_] (lines
    149-159) builds its string from the parent part, [gram_matrix] (lines
    161-173) returns the reference [self._gram_matrix], an assignment writes
    the store. *)
Definition act (a : action) (self : Instance) (σ : gmap nat Matrix)
    : answer * Instance * gmap nat Matrix :=
  match a with
  | Call_repr =>
      (Answer_str ("The free Bosons Lie conformal algebra with generators " +:+
                   gens_str (instance_super self) +:+ " over " +:+
                   ring_repr (base_ring (instance_super self))),
       self, σ)
  | Call_gram_matrix => (Answer_matrix (_gram_matrix_ref self), self, σ)
  | Assign l i j x =>
      (Answer_none, self, alter (λ M, Matrix_setitem M i j x) l σ)
  end.

Fixpoint play (acts : list action) (self : Instance) (σ : gmap nat Matrix)
    : list answer * Instance * gmap nat Matrix :=
  match acts with
  | [] => ([], self, σ)
  | a :: acts' =>
      let '(v, self, σ) := act a self σ in
      let '(vs, self, σ) := play acts' self σ in
      (v :: vs, self, σ)
  end.

(** What an action is to answer: [gram_matrix()] the reference [l],
    [_repr_()] a string, an assignment nothing. *)
Definition answers (l : nat) (a : action) (v : answer) : Prop :=
  match a with
  | Call_gram_matrix => v = Answer_matrix l
  | Call_repr => ∃ s, v = Answer_str s
  | Assign _ _ _ _ => v = Answer_none
  end.

(** The actions that assign into the matrix at [l]. *)
Definition assigns_to (l : nat) (a : action) : bool :=
  match a with
  | Assign l' _ _ _ => bool_decide (l' = l)
  | _ => false
  end.

End FreeBosons.

(** ** Concrete instances, to run the model *)

(** The integers as the universe of coefficients, with two rings in it: the
    integers themselves and the zero ring. *)
Definition ZZ : @Ring Z :=
  {| ring_contains := λ _, true; ring_zero := 0%Z; ring_one := 1%Z;
     ring_repr := "Integer Ring" |}.

Definition ZeroRing : @Ring Z :=
  {| ring_contains := λ x, bool_decide (x = 0%Z); ring_zero := 0%Z;
     ring_one := 0%Z; ring_repr := "Zero Ring" |}.

(** A matrix given by its rows; entries outside the rows read as [0]. *)
Definition matrix_of_rows (n m : nat) (rows : list (list Z)) : @Matrix Z :=
  {| nrows := n; ncols := m;
     entry := λ i j, default 0%Z (rows !! i ≫= λ row, row !! j) |}.

(** A plain rendering of a matrix: its rows, entries separated by blanks. *)
Definition rows_str (M : @Matrix Z) : string :=
  String.concat ";"
    ((λ i, String.concat " " ((λ j, pretty (entry M i j)) <$> seq 0 (ncols M)))
     <$> seq 0 (nrows M)).

(** ['x,y'.split(',')] *)
Fixpoint split_commas (s : string) : list string :=
  match s with
  | EmptyString => [EmptyString]
  | String c s' =>
      if Ascii.eqb c (Ascii.ascii_of_nat 44) then EmptyString :: split_commas s'
      else match split_commas s' with
           | w :: ws => String c w :: ws
           | [] => [String c EmptyString]
           end
  end.

(** Modelled from the spec: an instance of the naming-normalization
    collaborator [standardize_names_index_set] (absent from this module),
    which "resolves generator names and an index set of size [ngens]": a
    single name [x] stands for the family [x0, x1, ...] unless there is one
    generator, the names index the generators unless an index set is given,
    and sizes that disagree with [ngens] or repeated labels are refused. *)
Definition expand_names (names : option NamesArg) (ngens : nat)
    : option (list string) :=
  match names with
  | None => None
  | Some na =>
      let l := match na with NamesStr s => split_commas s | NamesTuple l => l end in
      match l with
      | [x] =>
          if bool_decide (ngens = 1)
          then Some l
          else Some ((λ i : nat, x +:+ pretty i) <$> seq 0 ngens)
      | _ => Some l
      end
  end.

Definition reference_naming (names : option NamesArg)
    (index_set : option IndexSet) (ngens : nat)
    : Result (option (list string) * IndexSet) :=
  let names := expand_names names ngens in
  let index_set :=
    match index_set, names with
    | Some ix, _ => ix
    | None, Some l => LStr <$> l
    | None, None => (λ i : nat, LInt (Z.of_nat i)) <$> seq 0 ngens
    end in
  if bool_decide (length index_set ≠ ngens)
  then Raise (IndexError
    "the size of the indexing set must equal the number of generators")
  else if match names with
          | Some l => bool_decide (length l ≠ ngens)
          | None => false
          end
  then Raise (IndexError
    "the number of names must equal the number of generators")
  else if bool_decide (NoDup index_set) then OK (names, index_set)
  else Raise (ValueError "the labels of the indexing set must be distinct").

(** The rendering of [self.gens()] used in the examples: the names, then the
    central elements. *)
Definition reference_gens_str (A : @GradedLieConformalAlgebra Z) : string :=
  "(" +:+ String.concat ", " (default [] (names A) ++ central_elements A) +:+ ")".

(** The constructor and the methods over these instances. *)
Definition FreeBosons :=
  @__init__ Z _ rows_str reference_naming.

(** Sample matrices: a symmetric one, the skew one of the doctest, and
    [identity_matrix(QQ, 1, 1)]. *)
Definition gram2 : @Matrix Z := matrix_of_rows 2 2 [[2; 1]; [1; 3]]%Z.
Definition skew2 : @Matrix Z := matrix_of_rows 2 2 [[0; 1]; [-1; 0]]%Z.
Definition one1 : @Matrix Z := matrix_of_rows 1 1 [[1]]%Z.

(** The object that [FreeBosons(ZZ, ngens=2, gram_matrix=gram2)] builds. *)
Definition bosons2 : @FreeBosonsLieConformalAlgebra Z :=
  let a0 := LStr "alpha0" in
  let a1 := LStr "alpha1" in
  {| super :=
       GradedLieConformalAlgebra_init ZZ
         (<[(a0, a0) := weight_one 2%Z]>
            (<[(a0, a1) := weight_one 1%Z]>
               (<[(a1, a0) := weight_one 1%Z]>
                  (<[(a1, a1) := weight_one 3%Z]> ∅))))
         (Some ["alpha0"; "alpha1"])
         (Some ["\alpha_{0}"; "\alpha_{1}"; "K"])
         [a0; a1] ["K"];
     _gram_matrix := gram2 |}.

(** The object that [FreeBosons(ZZ, gram_matrix=gram2, names=(x, y))]
    builds. *)
Definition bosons2_named (x y : string) : @FreeBosonsLieConformalAlgebra Z :=
  {| super :=
       GradedLieConformalAlgebra_init ZZ
         (<[(LStr x, LStr x) := weight_one 2%Z]>
            (<[(LStr x, LStr y) := weight_one 1%Z]>
               (<[(LStr y, LStr x) := weight_one 1%Z]>
                  (<[(LStr y, LStr y) := weight_one 3%Z]> ∅))))
         (Some [x; y]) None [LStr x; LStr y] ["K"];
     _gram_matrix := gram2 |}.

(** The object that [FreeBosons(ZZ)] builds. *)
Definition bosons1 : @FreeBosonsLieConformalAlgebra Z :=
  {| super :=
       GradedLieConformalAlgebra_init ZZ
         {[(LStr "alpha", LStr "alpha") := weight_one 1%Z]}
         (Some ["alpha"]) (Some ["\alpha_{0}"; "K"]) [LStr "alpha"] ["K"];
     _gram_matrix := identity_matrix ZZ 1 |}.

(** The constructor in a store, with the same collaborators; a store with
    the matrix [gram2] at the reference [0] and another matrix at [1]; the
    object built from the reference [0]. *)
Definition FreeBosons_in := @construct Z _ rows_str reference_naming.

Definition gram2_store : gmap nat (@Matrix Z) := <[0 := gram2]> {[1 := one1]}.

Definition bosons2_in_store : @Instance Z :=
  {| instance_super := super bosons2; _gram_matrix_ref := 0 |}.

(** Calls of the two methods around an assignment into the other matrix. *)
Definition calls_and_other_assignment : list (@action Z) :=
  [Call_gram_matrix; Assign 1 0 0 7%Z; Call_repr; Call_gram_matrix].

(** [M[0, 0] = 7] on the supplied matrix, then [gram_matrix()]. *)
Definition assignment_then_call : list (@action Z) :=
  [Assign 0 0 0 7%Z; Call_gram_matrix].

(** * The packaging script [pkgs/sage-conf_conda/setup.py]

    The commands [build_py.run] and [build_py._create_writable_sage_root] act
    on the file system and on the shell.  They are embedded in a state and
    exception monad over an abstract world: the operations of the operating
    system ([os.path.exists], [open], [shutil.copytree], [shutil.copyfile],
    [os.system]) and the inherited [run] are parameters that read or change
    the world, and every call of one that acts is recorded in a trace.  The
    pure parts ([os.path.join], [fnmatch.fnmatch], the closure [ignore], the
    command lines) are functions on strings. *)

(** ** Strings and paths *)

(** The characters [/], [*], [?] and the double quote. *)
Definition slash : Ascii.ascii := Ascii.ascii_of_nat 47.
Definition star : Ascii.ascii := Ascii.ascii_of_nat 42.
Definition qmark : Ascii.ascii := Ascii.ascii_of_nat 63.
Definition dq : string := String (Ascii.ascii_of_nat 34) EmptyString.

(** [s.startswith('/')] and [s.endswith('/')] *)
Definition startswith_sep (s : string) : bool :=
  match s with
  | String c _ => Ascii.eqb c slash
  | EmptyString => false
  end.

Fixpoint endswith_sep (s : string) : bool :=
  match s with
  | EmptyString => false
  | String c EmptyString => Ascii.eqb c slash
  | String _ s' => endswith_sep s'
  end.

(** One step of [posixpath.join]: a component that starts with [/] replaces
    the path, otherwise it is appended, after a [/] unless the path is empty
    or ends with one. *)
Definition path_join2 (path b : string) : string :=
  if startswith_sep b then b
  else if bool_decide (path = EmptyString) || endswith_sep path then path +:+ b
  else path +:+ "/" +:+ b.

(** [os.path.join(a, *p)] on strings, on a POSIX system. *)
Definition path_join (a : string) (p : list string) : string :=
  foldl path_join2 a p.
Arguments path_join : simpl never.

(** [fnmatch.fnmatch(name, pat)] on a POSIX system, for patterns made of
    literal characters, [*] (any run of characters) and [?] (any one
    character). *)
Fixpoint fnmatch_from (pat : string) : string → bool :=
  match pat with
  | EmptyString =>
      λ name, match name with EmptyString => true | String _ _ => false end
  | String c pat' =>
      if Ascii.eqb c star then
        fix any (name : string) : bool :=
          fnmatch_from pat' name
          || match name with
             | EmptyString => false
             | String _ name' => any name'
             end
      else if Ascii.eqb c qmark then
        λ name, match name with
                | EmptyString => false
                | String _ name' => fnmatch_from pat' name'
                end
      else
        λ name, match name with
                | EmptyString => false
                | String c' name' => Ascii.eqb c c' && fnmatch_from pat' name'
                end
  end.

Definition fnmatch (name pat : string) : bool := fnmatch_from pat name.

(** A pattern without [*] and [?]. *)
Fixpoint is_literal (pat : string) : bool :=
  match pat with
  | EmptyString => true
  | String c pat' =>
      negb (Ascii.eqb c star) && negb (Ascii.eqb c qmark) && is_literal pat'
  end.

(** ** The closure [ignore] of [_create_writable_sage_root], lines 74-82 *)

(** The names left out of the copy everywhere but in the package
    directories. *)
Definition ignored_names : list string :=
  [".tox"; ".git"; "__pycache__"; "prefix"; "local"; "venv"; "upstream";
   "config.status"; "config.log"; "logs"].

Definition ignore (path : string) (names : list string) : list string :=
  if fnmatch path "*/build/pkgs/*" then ["src"]
  else filter (λ name, name ∈ ignored_names) names.

(** ** Exceptions, events, the monad *)

Inductive py_exception :=
  | SetupError (msg : string)
  | TypeError (msg : string)
  | OtherException (msg : string).

(** [str(e)] *)
Definition exception_str (e : py_exception) : string :=
  match e with
  | SetupError msg | TypeError msg | OtherException msg => msg
  end.

Inductive Outcome (A : Type) :=
  | Return (a : A)
  | Throw (e : py_exception).
Arguments Return {A} a.
Arguments Throw {A} e.

(** What the script does to the outside, in the order it does it. *)
Inductive event :=
  | Open_read (path : string)
  | Copytree (src dst : string)
  | Print (line : string)
  | Flush
  | System (cmd : string)
  | Copyfile (src dst : string)
  | Super_run.

Section SetupPy.

(** The state of the file system and of whatever the shell commands change. *)
Variable World : Type.

Record Machine := {
  world : World;
  trace : list event;
}.

Definition IO (A : Type) : Type := Machine → Outcome A * Machine.

Definition io_ret {A} (a : A) : IO A := λ m, (Return a, m).
Definition io_bind {A B} (f : A → IO B) (c : IO A) : IO B := λ m,
  match c m with
  | (Return a, m') => f a m'
  | (Throw e, m') => (Throw e, m')
  end.
Global Instance IO_ret : MRet IO := @io_ret.
Global Instance IO_bind : MBind IO := @io_bind.

(** [raise e] *)
Definition throw {A} (e : py_exception) : IO A := λ m, (Throw e, m).

(** [try: c  except Exception as e: handler(e)] *)
Definition try_except {A} (c : IO A) (handler : py_exception → IO A) : IO A :=
  λ m, match c m with
       | (Return a, m') => (Return a, m')
       | (Throw e, m') => handler e m'
       end.

Definition record (ev : event) (m : Machine) : Machine :=
  {| world := world m; trace := trace m ++ [ev] |}.

(** *** The parameters *)

(** [os.path.dirname(__file__)], [platform.system()], [platform.machine()]
    and [os.environ]. *)
Variable HERE : string.
Variable platform_system : string.
Variable platform_machine : string.
Variable environ : gmap string string.

(** [text.strip()] *)
Variable str_strip : string → string.

(** [os.path.exists(path)] *)
Variable path_exists : World → string → bool.

(** [open(path).read()] *)
Variable file_read : World → string → Outcome string.

(** [shutil.copytree(src, dst, ignore=ignore)] *)
Variable copytree :
  string → string → (string → list string → list string) → World →
  Outcome unit * World.

(** [shutil.copyfile(src, dst)] *)
Variable copyfile : string → string → World → Outcome unit * World.

(** [os.system(cmd)]: the exit status. *)
Variable system : string → World → Z * World.

(** [setuptools_build_py.run(self)] *)
Variable super_run : World → Outcome unit * World.

(** *** The operations, recorded *)

Definition os_path_exists (path : string) : IO bool := λ m,
  (Return (path_exists (world m) path), m).

Definition open_read (path : string) : IO string := λ m,
  (file_read (world m) path, record (Open_read path) m).

Definition shutil_copytree (src dst : string)
    (ignore : string → list string → list string) : IO unit := λ m,
  let '(r, w) := copytree src dst ignore (world m) in
  (r, {| world := w; trace := trace m ++ [Copytree src dst] |}).

Definition shutil_copyfile (src dst : string) : IO unit := λ m,
  let '(r, w) := copyfile src dst (world m) in
  (r, {| world := w; trace := trace m ++ [Copyfile src dst] |}).

Definition os_system (cmd : string) : IO Z := λ m,
  let '(status, w) := system cmd (world m) in
  (Return status, {| world := w; trace := trace m ++ [System cmd] |}).

Definition setuptools_build_py_run : IO unit := λ m,
  let '(r, w) := super_run (world m) in
  (r, {| world := w; trace := trace m ++ [Super_run] |}).

Definition print (line : string) : IO unit := λ m,
  (Return (), record (Print line) m).

Definition stdout_flush : IO unit := λ m, (Return (), record Flush m).

(** *** [build_py._create_writable_sage_root], lines 61-94 *)

(** [f'sage-{sage_version}-{arch_tag}-conda'] with
    [arch_tag = f'{system}-{machine}'], lines 68-72. *)
Definition sage_root_name (sage_version : string) : string :=
  let arch_tag := platform_system +:+ "-" +:+ platform_machine in
  "sage-" +:+ sage_version +:+ "-" +:+ arch_tag +:+ "-conda".

(** The [SetupError] of lines 91-92. *)
Definition not_configured_error (SAGE_ROOT : string) (e : py_exception)
    : py_exception :=
  SetupError ("the directory SAGE_ROOT=" +:+ SAGE_ROOT +:+
              " already exists but it is not configured (" +:+
              exception_str e +:+ "). " +:+
              "Please either remove it and try again, or install in editable mode (pip install -e).").

Definition _create_writable_sage_root : IO string :=
  (* the default of [environ.get] is evaluated before the lookup *)
  home_sage ← match environ !! "HOME" with
              | Some home => mret (path_join home [".sage"])
              | None =>
                  throw (TypeError
                    "expected str, bytes or os.PathLike object, not NoneType")
              end;
  let DOT_SAGE := default home_sage (environ !! "DOT_SAGE") in
  text ← open_read (path_join HERE ["VERSION.txt"]);
  let sage_version := str_strip text in
  let SAGE_ROOT := path_join DOT_SAGE [sage_root_name sage_version] in
  configured ← os_path_exists (path_join SAGE_ROOT ["config.status"]);
  (if negb configured
   then try_except (shutil_copytree "sage_root" SAGE_ROOT ignore)
          (λ e, throw (not_configured_error SAGE_ROOT e))
   else mret ());;
  mret SAGE_ROOT.

(** *** [build_py.run], lines 19-59 *)

(** Lines 31-33. *)
Definition configure_command (SAGE_ROOT : string) : string :=
  "cd " +:+ SAGE_ROOT +:+
  " && ./configure --enable-build-as-root --with-system-python3=force --disable-notebook --disable-sagelib --disable-sage_conf --disable-doc" +:+
  " --with-python=$CONDA_PREFIX/bin/python --prefix=" +:+ dq +:+
  "$CONDA_PREFIX" +:+ dq +:+
  " $(for pkg in $(PATH=" +:+ dq +:+ "build/bin:$PATH" +:+ dq +:+
  " build/bin/sage-package list :standard: --exclude rpy2 --has-file spkg-configure.m4 --has-file distros/conda.txt); do echo --with-system-$pkg=force; done)".

(** Lines 43-44. *)
Definition prerequisites_command (SAGE_ROOT : string) : string :=
  let PREREQ_SPKG := "_prereq bzip2 xz libffi" in
  "cd " +:+ SAGE_ROOT +:+ " && export PACKAGES=" +:+ dq +:+
  "$(build/bin/sage-get-system-packages conda " +:+ PREREQ_SPKG +:+ ")" +:+
  dq +:+ " && [ -n " +:+ dq +:+ "$PACKAGES" +:+ dq +:+ " ] && echo " +:+ dq +:+
  "You can install the required build prerequisites using the following shell command" +:+
  dq +:+ " && echo " +:+ dq +:+ dq +:+
  " && build/bin/sage-print-system-package-command conda --verbose --sudo install $PACKAGES && echo " +:+
  dq +:+ dq.

Definition no_conda_error : py_exception :=
  SetupError ("No conda environment is active. " +:+
              "See https://doc.sagemath.org/html/en/installation/conda.html on how to get started.").

Definition configure_warning : string :=
  "Warning: A configuration has been written, but the configure script has exited with an error. " +:+
  "Carefully check any messages above before continuing.".

Definition configure_failure : string :=
  "Error: The configure script has failed; this may be caused by missing build prerequisites.".

(** Lines 21-25: where the Sage root is. *)
Definition locate_sage_root (editable_mode : bool) : IO string :=
  if editable_mode then mret (path_join HERE ["sage_root"])
  else _create_writable_sage_root.

(** Lines 27-45: the configure script is run in the Sage root. *)
Definition configure (SAGE_ROOT : string) : IO unit :=
  (if bool_decide (default "" (environ !! "CONDA_PREFIX") = "")
   then throw no_conda_error
   else mret ());;
  let cmd := configure_command SAGE_ROOT in
  print ("Running " +:+ cmd);;
  stdout_flush;;
  status ← os_system cmd;
  if bool_decide (status ≠ 0%Z) then
    configured ← os_path_exists (path_join SAGE_ROOT ["config.status"]);
    if configured : bool then print configure_warning
    else
      print configure_failure;;
      stdout_flush;;
      os_system (prerequisites_command SAGE_ROOT);;
      throw (SetupError "configure failed")
  else mret ().

(** Lines 49-57: the files that the configure script generated are copied. *)
Definition copy_generated_files (editable_mode : bool) (SAGE_ROOT : string)
    : IO unit :=
  (if editable_mode then mret ()
   else shutil_copyfile
          (path_join SAGE_ROOT ["pkgs"; "sage-conf"; "_sage_conf"; "_conf.py"])
          (path_join HERE ["_sage_conf"; "_conf.py"]));;
  shutil_copyfile (path_join SAGE_ROOT ["src"; "bin"; "sage-env-config"])
                  (path_join HERE ["bin"; "sage-env-config"]).

(** [build_py.run(self)], with [editable_mode = self.editable_mode]. *)
Definition run_build_py (editable_mode : bool) : IO unit :=
  SAGE_ROOT ← locate_sage_root editable_mode;
  configure SAGE_ROOT;;
  copy_generated_files editable_mode SAGE_ROOT;;
  setuptools_build_py_run.

End SetupPy.

(** ** A small world, to run the script on *)

(** The files of the world, by path, with their text; the latest entry of a
    path counts. *)
Abbreviation Files := (list (string * string)).

Fixpoint sample_lookup (w : Files) (path : string) : option string :=
  match w with
  | [] => None
  | (p, text) :: w' =>
      if String.eqb p path then Some text else sample_lookup w' path
  end.

Definition sample_exists (w : Files) (path : string) : bool :=
  match sample_lookup w path with Some _ => true | None => false end.

Definition sample_read (w : Files) (path : string) : Outcome string :=
  match sample_lookup w path with
  | Some text => Return text
  | None => Throw (OtherException ("No such file or directory: " +:+ path))
  end.

(** The copy of a tree fails when the destination exists, and otherwise
    makes it. *)
Definition sample_copytree (src dst : string)
    (ignore : string → list string → list string) (w : Files)
    : Outcome unit * Files :=
  if sample_exists w dst
  then (Throw (OtherException ("File exists: " +:+ dst)), w)
  else (Return (), (dst, EmptyString) :: w).

Definition sample_copyfile (src dst : string) (w : Files)
    : Outcome unit * Files :=
  match sample_lookup w src with
  | Some text => (Return (), (dst, text) :: w)
  | None =>
      (Throw (OtherException ("No such file or directory: " +:+ src)), w)
  end.

(** A shell whose commands all exit with [status] and change nothing. *)
Definition sample_system (status : Z) (cmd : string) (w : Files) : Z * Files :=
  (status, w).

Definition sample_super_run (w : Files) : Outcome unit * Files :=
  (Return (), w).

Definition sample_environ : gmap string string :=
  {["HOME" := "/home/u"; "CONDA_PREFIX" := "/opt/conda"]}.

(** An environment without conda, and one without [HOME]. *)
Definition no_conda_environ : gmap string string := {["HOME" := "/home/u"]}.
Definition no_home_environ : gmap string string := {["DOT_SAGE" := "/d"]}.

(** The root that the script makes in this world. *)
Definition sample_root : string :=
  "/home/u/.sage/sage-10.4-Linux-x86_64-conda".

(** A world with the version file only, and one with a configured root. *)
Definition fresh_world : Files := [("/pkg/VERSION.txt", "10.4")].

Definition configured_world : Files :=
  [("/pkg/VERSION.txt", "10.4");
   ("/home/u/.sage/sage-10.4-Linux-x86_64-conda/config.status", "");
   ("/home/u/.sage/sage-10.4-Linux-x86_64-conda/pkgs/sage-conf/_sage_conf/_conf.py",
    "conf");
   ("/home/u/.sage/sage-10.4-Linux-x86_64-conda/src/bin/sage-env-config",
    "env")].

(** An editable checkout, where the root is beside the script. *)
Definition editable_world : Files :=
  [("/pkg/sage_root/src/bin/sage-env-config", "env")].

Definition start (w : Files) : Machine Files :=
  {| world := w; trace := [] |}.

(** [_create_writable_sage_root] and [build_py.run] over this world; the
    version file holds no white space, so that [strip] changes nothing. *)
Definition sample_create_root (environ : gmap string string)
    : IO Files string :=
  _create_writable_sage_root Files "/pkg" "Linux" "x86_64"
    environ (λ s, s) sample_exists sample_read sample_copytree.

Definition sample_run (environ : gmap string string) (status : Z)
    (editable_mode : bool) : IO Files unit :=
  run_build_py Files "/pkg" "Linux" "x86_64" environ (λ s, s)
    sample_exists sample_read sample_copytree sample_copyfile
    (sample_system status) sample_super_run editable_mode.

(** The worlds that the runs below end in. *)
Definition copied_world : Files := (sample_root, EmptyString) :: fresh_world.

Definition built_world : Files :=
  ("/pkg/bin/sage-env-config", "env")
  :: ("/pkg/_sage_conf/_conf.py", "conf") :: configured_world.

Definition editable_built_world : Files :=
  ("/pkg/bin/sage-env-config", "env") :: editable_world.

(** [gram2] with entries written beyond its two rows and columns, and the
    object built from it. *)
Definition gram2_padded : @Matrix Z :=
  matrix_of_rows 2 2 [[2; 1; 7]; [1; 3; 7]; [7; 7; 7]]%Z.

Definition bosons2_padded : @FreeBosonsLieConformalAlgebra Z :=
  {| super := super bosons2; _gram_matrix := gram2_padded |}.

(** * Properties *)

(** ** Lists of labels and their product *)

Lemma NoDup_list_cprod {A B} (l : list A) (k : list B) :
  NoDup l → NoDup k → NoDup (cprod l k).
Proof.
  intros Hl Hk. induction Hl as [|x l Hx Hl IH]; simpl; [constructor|].
  change (cprod (x :: l) k) with ((pair x <$> k) ++ cprod l k).
  apply NoDup_app. split_and!.
  - apply NoDup_fmap_2; [|done]. by intros ?? [=].
  - intros [a b] Hab Hin. apply list_elem_of_fmap in Hab as (y & [= -> ->] & _).
    apply list_elem_of_cprod in Hin as [Hin _]. done.
  - done.
Qed.

Lemma length_list_cprod {A B} (l : list A) (k : list B) :
  length (cprod l k) = length l * length k.
Proof. rewrite list_cprod_list_prod. apply length_prod. Qed.

Lemma IndexSet_rank_elem (ix : IndexSet) (i : Label) :
  i ∈ ix → ∃ r, IndexSet_rank ix i = OK r ∧ r < length ix.
Proof.
  induction ix as [|x ix IH]; intros Hi; [by apply not_elem_of_nil in Hi|].
  simpl. destruct (decide (x = i)) as [->|Hne].
  - exists 0. split; [done|lia].
  - apply elem_of_cons in Hi as [->|Hi]; [done|].
    destruct (IH Hi) as (r & -> & Hr). exists (S r). split; [done|simpl; lia].
Qed.

Lemma IndexSet_rank_lt (ix : IndexSet) (i : Label) (r : nat) :
  IndexSet_rank ix i = OK r → r < length ix ∧ ix !! r = Some i.
Proof.
  revert r. induction ix as [|x ix IH]; intros r; simpl; [done|].
  destruct (decide (x = i)) as [->|Hne].
  - intros [= <-]. split; [lia|done].
  - destruct (IndexSet_rank ix i) as [r'|e]; simpl; [|done].
    intros [= <-]. destruct (IH r' eq_refl). split; [lia|done].
Qed.

Section Properties.

Context {Scalar : Type} `{!EqDecision Scalar}.
Variable matrix_str : @Matrix Scalar → string.
Variable standardize_names_index_set :
  option NamesArg → option IndexSet → nat →
  Result (option (list string) * IndexSet).
Variable gens_str : @GradedLieConformalAlgebra Scalar → string.

Implicit Types (R : @Ring Scalar) (M : @Matrix Scalar) (ix : IndexSet).
Implicit Types (d : Table Scalar) (k : Label * Label).

Local Abbreviation init := (__init__ matrix_str standardize_names_index_set).
Local Abbreviation resolve := (resolve_gram_matrix matrix_str).
Local Abbreviation error := (gram_matrix_error matrix_str).

(** ** Matrices *)

Lemma forall_entries_spec (n m : nat) (P : nat → nat → bool) :
  forall_entries n m P = true ↔ ∀ i j, i < n → j < m → P i j = true.
Proof.
  unfold forall_entries. rewrite forallb_forall. split.
  - intros H i j Hi Hj.
    specialize (H i (proj2 (in_seq _ _ _) (conj (Nat.le_0_l _) Hi))).
    rewrite forallb_forall in H. apply H, in_seq. lia.
  - intros H i Hi%in_seq. apply forallb_forall. intros j Hj%in_seq.
    apply H; lia.
Qed.

Lemma is_symmetric_spec M : is_symmetric M = true ↔ symmetric M.
Proof.
  unfold is_symmetric, symmetric.
  rewrite andb_true_iff, bool_decide_eq_true, forall_entries_spec.
  split; intros [Hsq H]; (split; [done|]); intros i j Hi Hj.
  - by apply (bool_decide_eq_true_1 _), H.
  - by apply bool_decide_eq_true_2, H.
Qed.

Lemma MatrixSpace_contains_spec R (n m : nat) M :
  MatrixSpace_contains R n m M = true ↔
  nrows M = n ∧ ncols M = m ∧
  ∀ i j, i < n → j < m → ring_contains R (entry M i j) = true.
Proof.
  unfold MatrixSpace_contains.
  rewrite !andb_true_iff, !bool_decide_eq_true, forall_entries_spec.
  split.
  - intros [[<- <-] H]. done.
  - intros (<- & <- & H). done.
Qed.

Lemma identity_matrix_symmetric R (n : nat) : symmetric (identity_matrix R n).
Proof.
  split; [done|]. intros i j _ _. simpl.
  destruct (decide (i = j)) as [->|Hne]; [done|].
  rewrite !bool_decide_eq_false_2; done.
Qed.

Lemma Matrix_getitem_lt M (r c : nat) :
  r < nrows M → c < ncols M → Matrix_getitem M r c = OK (entry M r c).
Proof.
  intros Hr Hc. unfold Matrix_getitem.
  by rewrite !bool_decide_eq_true_2.
Qed.

Lemma Matrix_getitem_OK M (r c : nat) (x : Scalar) :
  Matrix_getitem M r c = OK x → r < nrows M ∧ c < ncols M ∧ x = entry M r c.
Proof.
  unfold Matrix_getitem.
  destruct (bool_decide (r < nrows M)) eqn:Hr; simpl; [|done].
  destruct (bool_decide (c < ncols M)) eqn:Hc; simpl; [|done].
  apply bool_decide_eq_true in Hr, Hc. by intros [= <-].
Qed.

(** ** The comprehension *)

Lemma gram_entry_succeeds M ix (i j : Label) :
  length ix ≤ nrows M → length ix ≤ ncols M → i ∈ ix → j ∈ ix →
  succeeds (gram_entry M ix i j).
Proof.
  intros Hr Hc Hi Hj. unfold gram_entry.
  destruct (IndexSet_rank_elem ix i Hi) as (r & -> & ?).
  destruct (IndexSet_rank_elem ix j Hj) as (c & -> & ?). simpl.
  rewrite Matrix_getitem_lt by lia. by eexists.
Qed.

Lemma gram_entry_inv M ix (i j : Label) (x : Scalar) :
  gram_entry M ix i j = OK x →
  ∃ r c, IndexSet_rank ix i = OK r ∧ IndexSet_rank ix j = OK c ∧
         r < nrows M ∧ c < ncols M ∧ x = entry M r c.
Proof.
  unfold gram_entry.
  destruct (IndexSet_rank ix i) as [r|]; simpl; [|done].
  destruct (IndexSet_rank ix j) as [c|]; simpl; [|done].
  intros (? & ? & ?)%Matrix_getitem_OK. by exists r, c.
Qed.

Lemma expected_item_OK M ix (i j : Label) (x : Scalar) :
  gram_entry M ix i j = OK x → expected_item M ix (i, j) = Some (weight_one x).
Proof. unfold expected_item. simpl. by intros ->. Qed.

Lemma bosondict_item_OK M ix (i j : Label) (x : Scalar) d :
  gram_entry M ix i j = OK x →
  bosondict_item M ix d i j = OK (<[(i, j) := weight_one x]> d).
Proof. unfold bosondict_item. by intros ->. Qed.

Lemma inner_loop_spec M ix (i : Label) (js : list Label) d d' :
  foldM (λ d j, bosondict_item M ix d i j) js d = OK d' →
  (∀ j, j ∈ js → succeeds (gram_entry M ix i j)) ∧
  ∀ k, d' !! k = if decide (k.1 = i ∧ k.2 ∈ js)
                 then expected_item M ix k else d !! k.
Proof.
  revert d. induction js as [|j js IH]; intros d; cbn [foldM].
  - intros [= <-]. split; [by intros ? ?%not_elem_of_nil|].
    intros k. rewrite decide_False; [done|].
    intros [_ H]. by apply not_elem_of_nil in H.
  - destruct (bosondict_item M ix d i j) as [d1|e] eqn:Hitem; simpl; [|done].
    unfold bosondict_item in Hitem.
    destruct (gram_entry M ix i j) as [x|e] eqn:Hx; simpl in Hitem; [|done].
    injection Hitem as <-.
    intros [Hok Hlook]%IH. split.
    + intros j' [->|?]%elem_of_cons; [by eexists|by apply Hok].
    + intros [a b]. rewrite Hlook. simpl.
      destruct (decide (a = i ∧ b ∈ js)) as [[-> Hb]|Hn1];
        destruct (decide (_ ∧ b ∈ j :: js)) as [[Ha Hb']|Hn2].
      * done.
      * exfalso. apply Hn2. split; [done|]. apply elem_of_cons. by right.
      * subst a. apply elem_of_cons in Hb' as [->|Hb']; [|by destruct Hn1].
        by rewrite lookup_insert_eq, (expected_item_OK _ _ _ _ _ Hx).
      * apply lookup_insert_ne. intros [= <- <-]. apply Hn2.
        split; [done|]. apply elem_of_cons. by left.
Qed.

Lemma outer_loop_spec M ix (ls : list Label) d d' :
  foldM (λ d i, foldM (λ d j, bosondict_item M ix d i j) ix d) ls d = OK d' →
  (∀ i j, i ∈ ls → j ∈ ix → succeeds (gram_entry M ix i j)) ∧
  ∀ k, d' !! k = if decide (k.1 ∈ ls ∧ k.2 ∈ ix)
                 then expected_item M ix k else d !! k.
Proof.
  revert d. induction ls as [|i ls IH]; intros d; cbn [foldM].
  - intros [= <-]. split; [by intros ?? ?%not_elem_of_nil|].
    intros k. rewrite decide_False; [done|].
    intros [H _]. by apply not_elem_of_nil in H.
  - destruct (foldM _ ix d) as [d1|e] eqn:Hin; simpl; [|done].
    apply inner_loop_spec in Hin as [Hok1 Hl1].
    intros [Hok Hlook]%IH. split.
    + intros i' j [->|?]%elem_of_cons ?; [by apply Hok1|by apply Hok].
    + intros k. rewrite Hlook, Hl1.
      destruct (decide (k.1 ∈ ls ∧ k.2 ∈ ix)) as [[Ha Hb]|Hn1];
        destruct (decide (k.1 ∈ i :: ls ∧ _)) as [[Ha' Hb']|Hn2].
      * done.
      * exfalso. apply Hn2. split; [|done]. apply elem_of_cons. by right.
      * apply elem_of_cons in Ha' as [Ha'|Ha']; [|by destruct Hn1].
        by rewrite decide_True.
      * rewrite decide_False; [done|]. intros [Ha Hb]. apply Hn2.
        split; [|done]. apply elem_of_cons. by left.
Qed.

Lemma inner_loop_succeeds M ix (i : Label) (js : list Label) d :
  (∀ j, j ∈ js → succeeds (gram_entry M ix i j)) →
  succeeds (foldM (λ d j, bosondict_item M ix d i j) js d).
Proof.
  revert d. induction js as [|j js IH]; intros d H; cbn [foldM]; [by eexists|].
  destruct (H j) as [x Hx]; [apply elem_of_cons; by left|].
  rewrite (bosondict_item_OK _ _ _ _ _ _ Hx). simpl.
  apply IH. intros j' ?. apply H, elem_of_cons. by right.
Qed.

Lemma outer_loop_succeeds M ix (ls : list Label) d :
  (∀ i j, i ∈ ls → j ∈ ix → succeeds (gram_entry M ix i j)) →
  succeeds (foldM (λ d i, foldM (λ d j, bosondict_item M ix d i j) ix d) ls d).
Proof.
  revert d. induction ls as [|i ls IH]; intros d H; cbn [foldM]; [by eexists|].
  destruct (inner_loop_succeeds M ix i ix d) as [d1 ->].
  { intros j ?. apply H; [apply elem_of_cons; by left|done]. }
  simpl. apply IH. intros i' j ??. apply H; [|done].
  apply elem_of_cons. by right.
Qed.

Lemma bosondict_spec M ix d :
  bosondict M ix = OK d →
  (∀ i j : Label, i ∈ ix → j ∈ ix → succeeds (gram_entry M ix i j)) ∧
  ∀ k, d !! k = if decide (k.1 ∈ ix ∧ k.2 ∈ ix)
                then expected_item M ix k else None.
Proof.
  intros [Hok Hlook]%outer_loop_spec. split; [done|].
  intros k. rewrite Hlook. by rewrite lookup_empty.
Qed.

Lemma bosondict_succeeds M ix :
  length ix ≤ nrows M → length ix ≤ ncols M → succeeds (bosondict M ix).
Proof.
  intros Hr Hc. apply outer_loop_succeeds.
  intros i j Hi Hj. by apply gram_entry_succeeds.
Qed.

Lemma bosondict_lookup M ix d (i j : Label) :
  bosondict M ix = OK d → i ∈ ix → j ∈ ix →
  ∃ r c, IndexSet_rank ix i = OK r ∧ IndexSet_rank ix j = OK c ∧
         r < nrows M ∧ c < ncols M ∧
         d !! (i, j) = Some (weight_one (entry M r c)).
Proof.
  intros [Hok Hlook]%bosondict_spec Hi Hj.
  destruct (Hok i j Hi Hj) as [x Hx].
  destruct (gram_entry_inv _ _ _ _ _ Hx) as (r & c & Hr & Hc & ? & ? & ->).
  exists r, c. split_and!; try done.
  rewrite Hlook, decide_True by done. by apply expected_item_OK.
Qed.

Lemma bosondict_lookup_None M ix d (i j : Label) :
  bosondict M ix = OK d → ¬ (i ∈ ix ∧ j ∈ ix) → d !! (i, j) = None.
Proof.
  intros [_ Hlook]%bosondict_spec Hn. by rewrite Hlook, decide_False.
Qed.

Lemma bosondict_dom M ix d :
  bosondict M ix = OK d → dom d = list_to_set (cprod ix ix).
Proof.
  intros Hd. apply set_eq. intros [i j].
  rewrite elem_of_dom, elem_of_list_to_set, list_elem_of_cprod. simpl. split.
  - intros Hsome. destruct (decide (i ∈ ix ∧ j ∈ ix)) as [|Hn]; [done|].
    rewrite (bosondict_lookup_None _ _ _ _ _ Hd Hn) in Hsome.
    by destruct Hsome.
  - intros [Hi Hj].
    destruct (bosondict_lookup _ _ _ _ _ Hd Hi Hj) as (r & c & _ & _ & _ & _ & ->).
    by eexists.
Qed.

Lemma bosondict_size M ix d :
  bosondict M ix = OK d → NoDup ix → size d = length ix * length ix.
Proof.
  intros Hd Hnd.
  rewrite <- (size_dom (D := gset (Label * Label))), (bosondict_dom _ _ _ Hd).
  rewrite size_list_to_set by (by apply NoDup_list_cprod).
  apply length_list_cprod.
Qed.

(** ** The constructor, stage by stage *)

Lemma resolve_supplied_OK R (ngens : option nat) M (n : nat) (G : Matrix) :
  resolve R ngens (Some M) = OK (n, G) →
  G = M ∧ n = default (nrows M) ngens ∧
  MatrixSpace_contains R n n M = true ∧ is_symmetric M = true.
Proof.
  unfold resolve_gram_matrix.
  set (n' := match ngens with None => _ | Some m => m end).
  replace (default (nrows M) ngens) with n' by (by destruct ngens).
  destruct (MatrixSpace_contains R n' n' M) eqn:Hmem; simpl; [|done].
  destruct (is_symmetric M); simpl; [|done].
  intros [= <- <-]. by rewrite Hmem.
Qed.

Lemma resolve_OK R (ngens : option nat) (gm : option Matrix) (n : nat) (G : Matrix) :
  resolve R ngens gm = OK (n, G) →
  symmetric G ∧ nrows G = n ∧ ncols G = n.
Proof.
  destruct gm as [M|].
  - intros (-> & -> & [? [? _]]%MatrixSpace_contains_spec & ?%is_symmetric_spec)
      %resolve_supplied_OK. done.
  - intros [= <- <-]. split; [apply identity_matrix_symmetric|done].
Qed.

Lemma init_OK R (ngens : option nat) (gm : option Matrix)
    (names : option NamesArg) (idx : option IndexSet)
    (obj : FreeBosonsLieConformalAlgebra) :
  init R ngens gm names idx = OK obj →
  ∃ n G names' ix d,
    resolve R ngens gm = OK (n, G) ∧
    standardize_names_index_set (resolve_names n names idx).1 idx n
      = OK (names', ix) ∧
    bosondict G ix = OK d ∧
    obj = {| super := GradedLieConformalAlgebra_init R d names'
                        (resolve_names n names idx).2 ix ["K"];
             _gram_matrix := G |}.
Proof.
  unfold __init__.
  destruct (resolve R ngens gm) as [[n G]|e]; simpl; [|done].
  destruct (resolve_names n names idx) as [names0 latex] eqn:Hn. simpl.
  destruct (standardize_names_index_set names0 idx n) as [[names' ix]|e]
    eqn:Hst; simpl; [|done].
  destruct (bosondict G ix) as [d|e] eqn:Hd; simpl; [|done].
  intros [= <-]. exists n, G, names', ix, d. by rewrite Hn.
Qed.

Lemma init_intro R (ngens : option nat) (gm : option Matrix)
    (names : option NamesArg) (idx : option IndexSet)
    (n : nat) (G : Matrix) (names' : option (list string)) ix d :
  resolve R ngens gm = OK (n, G) →
  standardize_names_index_set (resolve_names n names idx).1 idx n
    = OK (names', ix) →
  bosondict G ix = OK d →
  init R ngens gm names idx
  = OK {| super := GradedLieConformalAlgebra_init R d names'
                     (resolve_names n names idx).2 ix ["K"];
          _gram_matrix := G |}.
Proof.
  intros Hres Hst Hd. unfold __init__. rewrite Hres. simpl.
  destruct (resolve_names n names idx) as [names0 latex]. simpl in *.
  rewrite Hst. simpl. rewrite Hd. done.
Qed.

Lemma init_raise R (ngens : option nat) (gm : option Matrix)
    (names : option NamesArg) (idx : option IndexSet) (e : exception) :
  resolve R ngens gm = Raise e → init R ngens gm names idx = Raise e.
Proof. intros H. unfold __init__. by rewrite H. Qed.

(** ** The object in a store *)

Lemma construct_OK (σ0 : gmap nat Matrix) R (ngens : option nat)
    (gm : option nat) (names : option NamesArg) (idx : option IndexSet)
    (self : Instance) (σ : gmap nat Matrix) :
  construct matrix_str standardize_names_index_set σ0 R ngens gm names idx
  = OK (self, σ) →
  match gm with
  | Some l =>
      ∃ M obj, σ0 !! l = Some M ∧
               init R ngens (Some M) names idx = OK obj ∧
               self = {| instance_super := super obj; _gram_matrix_ref := l |} ∧
               σ = σ0
  | None =>
      ∃ obj, init R ngens None names idx = OK obj ∧
             self = {| instance_super := super obj;
                       _gram_matrix_ref := fresh (dom σ0) |} ∧
             σ = <[fresh (dom σ0) := _gram_matrix obj]> σ0
  end.
Proof.
  unfold construct. destruct gm as [l|].
  - destruct (σ0 !! l) as [M|]; [|done].
    destruct (init R ngens (Some M) names idx) as [obj|] eqn:Hinit; simpl;
      [|done].
    intros [= <- <-]. by exists M, obj.
  - destruct (init R ngens None names idx) as [obj|] eqn:Hinit; simpl; [|done].
    intros [= <- <-]. by exists obj.
Qed.

Lemma act_self (a : action) (self : Instance) (σ : gmap nat Matrix) :
  (act gens_str a self σ).1.2 = self.
Proof. by destruct a. Qed.

Lemma act_answers (a : action) (self : Instance) (σ : gmap nat Matrix) :
  answers (_gram_matrix_ref self) a (act gens_str a self σ).1.1.
Proof. destruct a; simpl; by eauto. Qed.

Lemma act_store (a : action) (self : Instance) (σ : gmap nat Matrix) (l : nat) :
  assigns_to l a = false → (act gens_str a self σ).2 !! l = σ !! l.
Proof.
  destruct a as [| |l' i j x]; simpl; [done..|].
  intros Hl%bool_decide_eq_false. by apply lookup_alter_ne.
Qed.

Lemma play_cons (a : action) (acts : list action) (self : Instance)
    (σ : gmap nat Matrix) :
  play gens_str (a :: acts) self σ
  = ((act gens_str a self σ).1.1
       :: (play gens_str acts self (act gens_str a self σ).2).1.1,
     (play gens_str acts self (act gens_str a self σ).2).1.2,
     (play gens_str acts self (act gens_str a self σ).2).2).
Proof.
  cbn [play]. pose proof (act_self a self σ) as Hs.
  destruct (act gens_str a self σ) as [[v self1] σ1]. simpl in *. subst self1.
  by destruct (play gens_str acts self σ1) as [[vs self2] σ2].
Qed.

Lemma play_self (acts : list action) (self : Instance) (σ : gmap nat Matrix) :
  (play gens_str acts self σ).1.2 = self.
Proof.
  revert σ. induction acts as [|a acts IH]; intros σ; [done|].
  rewrite play_cons. simpl. apply IH.
Qed.

Lemma play_answers (acts : list action) (self : Instance)
    (σ : gmap nat Matrix) :
  Forall2 (answers (_gram_matrix_ref self)) acts
          (play gens_str acts self σ).1.1.
Proof.
  revert σ. induction acts as [|a acts IH]; intros σ; [constructor|].
  rewrite play_cons. simpl. constructor; [apply act_answers|apply IH].
Qed.

Lemma play_store (acts : list action) (self : Instance) (σ : gmap nat Matrix)
    (l : nat) :
  Forall (λ a, assigns_to l a = false) acts →
  (play gens_str acts self σ).2 !! l = σ !! l.
Proof.
  revert σ. induction acts as [|a acts IH]; intros σ Hl; [done|].
  apply Forall_cons in Hl as [Ha Hl].
  rewrite play_cons. simpl. rewrite IH by done. by apply act_store.
Qed.

(** ** No generators *)

Lemma bosondict_empty_matrix R (i : Label) ix :
  bosondict (identity_matrix R 0) (i :: ix)
  = Raise (IndexError "matrix index out of range").
Proof.
  assert (∀ d, bosondict_item (identity_matrix R 0) (i :: ix) d i i
               = Raise (IndexError "matrix index out of range")) as Hitem.
  { intros d. unfold bosondict_item, gram_entry. cbn [IndexSet_rank].
    by rewrite decide_True. }
  unfold bosondict. cbn [foldM]. by rewrite Hitem.
Qed.

(** ** The claims *)

(** C1.  For every ring [R], every [n] and every symmetric matrix [M] of the
    [n x n] matrix space over [R], the construction with [ngens = n] and
    [gram_matrix = M] raises no error, whenever the naming collaborator
    resolves the names to an index set of size [n]; the accessor
    [gram_matrix()] of the object returns [M]. *)
Theorem C1_symmetric_gram_matrix_accepted R (n : nat) M
    (names : option NamesArg) (idx : option IndexSet)
    (names' : option (list string)) ix :
  symmetric M →
  MatrixSpace_contains R n n M = true →
  standardize_names_index_set (resolve_names n names idx).1 idx n
    = OK (names', ix) →
  length ix = n →
  ∃ obj, init R (Some n) (Some M) names idx = OK obj ∧
         (gram_matrix obj).1 = M.
Proof.
  intros Hsym Hmem Hst Hlen.
  assert (resolve R (Some n) (Some M) = OK (n, M)) as Hres.
  { unfold resolve_gram_matrix. rewrite Hmem. simpl.
    by rewrite (proj2 (is_symmetric_spec M) Hsym). }
  apply MatrixSpace_contains_spec in Hmem as (Hr & Hc & _).
  destruct (bosondict_succeeds M ix) as [d Hd]; [lia..|].
  eexists. split; [by eapply init_intro|done].
Qed.

(** C2.  Defaults.  Without [gram_matrix], the Gram matrix is the identity
    matrix of size [ngens] over the ring, and [ngens] is [1] when it is
    omitted too; with a [gram_matrix] and without [ngens], [ngens] is the
    matrix's dimension [gram_matrix.dimensions()[0]], its number of rows:
    that number is the one the resolution returns, the one the matrix is
    checked against, the one the error message names, and the one the naming
    collaborator is called with.  Both at the resolution stage and for the
    whole constructor. *)
Theorem C2_default_resolution R M (ngens : option nat)
    (names : option NamesArg) (idx : option IndexSet) :
  resolve R ngens None
    = OK (default 1 ngens, identity_matrix R (default 1 ngens)) ∧
  resolve R None None = OK (1, identity_matrix R 1) ∧
  resolve R None (Some M) = resolve R (Some (dimensions M).1) (Some M) ∧
  init R None None names idx = init R (Some 1) None names idx ∧
  init R None (Some M) names idx = init R (Some (nrows M)) (Some M) names idx ∧
  (∀ obj, init R ngens None names idx = OK obj →
          (gram_matrix obj).1 = identity_matrix R (default 1 ngens)) ∧
  (∀ (n : nat) G, resolve R None (Some M) = OK (n, G) → n = nrows M ∧ G = M) ∧
  (symmetric M → MatrixSpace_contains R (nrows M) (nrows M) M = true →
   resolve R None (Some M) = OK (nrows M, M)) ∧
  (∀ e, resolve R None (Some M) = Raise e → e = error (nrows M) M) ∧
  (∀ obj, init R None (Some M) names idx = OK obj →
          (gram_matrix obj).1 = M ∧
          ∃ names',
            standardize_names_index_set
              (resolve_names (nrows M) names idx).1 idx (nrows M)
            = OK (names', index_set (super obj))).
Proof.
  split_and!; try done.
  - intros obj (n & G & names' & ix & d & Hres & _ & _ & ->)%init_OK.
    simpl. destruct ngens; by injection Hres as <- <-.
  - by intros n G (-> & -> & _)%resolve_supplied_OK.
  - intros Hsym Hmem. unfold resolve_gram_matrix. simpl. rewrite Hmem. simpl.
    by rewrite (proj2 (is_symmetric_spec M) Hsym).
  - intros e. unfold resolve_gram_matrix. simpl.
    destruct (MatrixSpace_contains R (nrows M) (nrows M) M); simpl;
      [|by intros [= <-]].
    destruct (is_symmetric M); simpl; [done|by intros [= <-]].
  - intros obj (n & G & names' & ix & d & Hres & Hst & _ & ->)%init_OK.
    apply resolve_supplied_OK in Hres as (-> & -> & _). simpl in *.
    split; [done|]. by exists names'.
Qed.

(** C3.  A supplied [gram_matrix] that is not symmetric makes the constructor
    raise, at once, the [ValueError] whose message names the expected
    [ngens x ngens] shape and the matrix. *)
Theorem C3_asymmetric_gram_matrix_rejected R (ngens : option nat) M
    (names : option NamesArg) (idx : option IndexSet) :
  ¬ symmetric M →
  let n := default (dimensions M).1 ngens in
  init R ngens (Some M) names idx
  = Raise (ValueError ("the gram_matrix should be a symmetric " +:+
                       (pretty n +:+ " x " +:+ pretty n +:+ " matrix, got " +:+
                        matrix_str M))).
Proof.
  intros Hns n. apply init_raise. unfold resolve_gram_matrix.
  replace (match ngens with None => _ | Some m => m end) with n
    by (by destruct ngens).
  destruct (MatrixSpace_contains R n n M); simpl; [|done].
  destruct (is_symmetric M) eqn:Hs; simpl; [|done].
  by apply is_symmetric_spec in Hs.
Qed.

(** C4.  A supplied [gram_matrix] that is not in the [ngens x ngens] matrix
    space over the ring makes the constructor raise the [ValueError] that
    reports the expected dimension; in particular a matrix whose dimension
    differs from an explicit [ngens]. *)
Theorem C4_gram_matrix_outside_matrix_space_rejected R (ngens : option nat) M
    (names : option NamesArg) (idx : option IndexSet) :
  let n := default (dimensions M).1 ngens in
  (MatrixSpace_contains R n n M = false →
   init R ngens (Some M) names idx = Raise (error n M)) ∧
  ∀ m : nat, nrows M ≠ m ∨ ncols M ≠ m →
    init R (Some m) (Some M) names idx
    = Raise (ValueError ("the gram_matrix should be a symmetric " +:+
                         (pretty m +:+ " x " +:+ pretty m +:+ " matrix, got " +:+
                          matrix_str M))).
Proof.
  intros n. split.
  - intros Hmem. apply init_raise. unfold resolve_gram_matrix.
    replace (match ngens with None => _ | Some m => m end) with n
      by (by destruct ngens).
    by rewrite Hmem.
  - intros m Hdim. apply init_raise. unfold resolve_gram_matrix.
    destruct (MatrixSpace_contains R m m M) eqn:Hmem; simpl; [|done].
    apply MatrixSpace_contains_spec in Hmem as (? & ? & _).
    by destruct Hdim.
Qed.

(** C5.  After a successful construction, with index set [ix] of [n] distinct
    labels and Gram matrix [M], the structure-constant table has exactly [n²]
    entries, one for every ordered pair [(i, j)] of labels of [ix] and no
    other, and the entry of [(i, j)] is [{1: {('K', 0): M[rank(i), rank(j)]}}]. *)
Theorem C5_table_entries R (ngens : option nat) (gm : option Matrix)
    (names : option NamesArg) (idx : option IndexSet)
    (obj : FreeBosonsLieConformalAlgebra) :
  init R ngens gm names idx = OK obj →
  NoDup (index_set (super obj)) →
  let ix := index_set (super obj) in
  let M := _gram_matrix obj in
  let n := length ix in
  size (s_coeff (super obj)) = n * n ∧
  (∀ i j : Label, i ∈ ix → j ∈ ix →
     ∃ (r c : nat) (x : Scalar),
       IndexSet_rank ix i = OK r ∧ ix !! r = Some i ∧
       IndexSet_rank ix j = OK c ∧ ix !! c = Some j ∧
       Matrix_getitem M r c = OK x ∧
       s_coeff (super obj) !! (i, j)
       = Some {[1%Z := {[("K", 0%Z) := x]}]}) ∧
  (∀ i j : Label, is_Some (s_coeff (super obj) !! (i, j)) → i ∈ ix ∧ j ∈ ix).
Proof.
  intros (n & G & names' & ix & d & Hres & _ & Hd & ->)%init_OK Hnd. simpl in *.
  split_and!.
  - by eapply bosondict_size.
  - intros i j Hi Hj.
    destruct (bosondict_lookup _ _ _ _ _ Hd Hi Hj)
      as (r & c & Hr & Hc & ? & ? & Hl).
    exists r, c, (entry G r c). split_and!; try done.
    + by apply IndexSet_rank_lt in Hr as [_ ?].
    + by apply IndexSet_rank_lt in Hc as [_ ?].
    + by apply Matrix_getitem_lt.
  - intros i j Hsome. destruct (decide (i ∈ ix ∧ j ∈ ix)) as [|Hn]; [done|].
    rewrite (bosondict_lookup_None _ _ _ _ _ Hd Hn) in Hsome.
    by destruct Hsome.
Qed.

(** C6.  After a successful construction the structure-constant table is
    symmetric: the entry of [(i, j)] is the entry of [(j, i)], for all labels
    [i] and [j]. *)
Theorem C6_table_symmetric R (ngens : option nat) (gm : option Matrix)
    (names : option NamesArg) (idx : option IndexSet)
    (obj : FreeBosonsLieConformalAlgebra) :
  init R ngens gm names idx = OK obj →
  ∀ i j : Label,
    s_coeff (super obj) !! (i, j) = s_coeff (super obj) !! (j, i).
Proof.
  intros (n & G & names' & ix & d & Hres & _ & Hd & ->)%init_OK i j. simpl.
  apply resolve_OK in Hres as ([Hsq Hsym] & Hr & Hc).
  destruct (decide (i ∈ ix ∧ j ∈ ix)) as [[Hi Hj]|Hn].
  - destruct (bosondict_lookup _ _ _ _ _ Hd Hi Hj)
      as (r & c & Hri & Hcj & ? & ? & ->).
    destruct (bosondict_lookup _ _ _ _ _ Hd Hj Hi)
      as (r' & c' & Hrj & Hci & ? & ? & ->).
    rewrite Hri in Hci. rewrite Hcj in Hrj.
    injection Hci as <-. injection Hrj as <-.
    f_equal. f_equal. apply Hsym; lia.
  - rewrite !(bosondict_lookup_None _ _ _ _ _ Hd); [done| |done].
    intros [??]. by apply Hn.
Qed.

(** C8, amended.  The table is fixed at construction and the object never
    changes; the Gram matrix is kept by reference.  After a successful
    construction in a store:
    - the parent part, with its table, is the one the constructor built from
      the matrix as it was then, and [self._gram_matrix] refers to the
      resolved matrix: the very matrix object that was supplied, not a copy,
      the store being as before, or else a new identity matrix, every matrix
      that existed being as before;
    - whatever follows, calls of [_repr_] and [gram_matrix] and assignments
      into matrices, leaves the object as it is, the table included, and
      every call of [gram_matrix()] answers the same reference;
    - a matrix changes only by an assignment into it: no operation of the
      class writes one.  So [gram_matrix()] shows the entries resolved by the
      constructor for as long as nobody assigns into that matrix. *)
Theorem C8_table_fixed_gram_matrix_by_reference (σ0 : gmap nat Matrix) R
    (ngens : option nat) (gm : option nat) (names : option NamesArg)
    (idx : option IndexSet) (self : Instance) (σ : gmap nat Matrix)
    (acts : list action) :
  construct matrix_str standardize_names_index_set σ0 R ngens gm names idx
  = OK (self, σ) →
  let G := match gm ≫= (σ0 !!.) with
           | Some M => M
           | None => identity_matrix R (default 1 ngens)
           end in
  let self' := (play gens_str acts self σ).1.2 in
  let σ' := (play gens_str acts self σ).2 in
  (∃ obj, init R ngens (gm ≫= (σ0 !!.)) names idx = OK obj ∧
          instance_super self = super obj ∧ _gram_matrix obj = G) ∧
  σ !! _gram_matrix_ref self = Some G ∧
  (∀ l, gm = Some l → _gram_matrix_ref self = l ∧ σ = σ0) ∧
  (gm = None → σ0 !! _gram_matrix_ref self = None ∧
               ∀ l, is_Some (σ0 !! l) → σ !! l = σ0 !! l) ∧
  self' = self ∧
  s_coeff (instance_super self') = s_coeff (instance_super self) ∧
  _gram_matrix_ref self' = _gram_matrix_ref self ∧
  Forall2 (answers (_gram_matrix_ref self)) acts
          (play gens_str acts self σ).1.1 ∧
  (∀ l, Forall (λ a, assigns_to l a = false) acts → σ' !! l = σ !! l) ∧
  (Forall (λ a, assigns_to (_gram_matrix_ref self) a = false) acts →
   σ' !! _gram_matrix_ref self' = Some G).
Proof.
  intros Hc G self' σ'.
  assert ((∃ obj, init R ngens (gm ≫= (σ0 !!.)) names idx = OK obj ∧
                  instance_super self = super obj ∧ _gram_matrix obj = G) ∧
          σ !! _gram_matrix_ref self = Some G ∧
          (∀ l, gm = Some l → _gram_matrix_ref self = l ∧ σ = σ0) ∧
          (gm = None → σ0 !! _gram_matrix_ref self = None ∧
                       ∀ l, is_Some (σ0 !! l) → σ !! l = σ0 !! l))
    as (Hobj & HG & Hsome & Hnone).
  { apply construct_OK in Hc. destruct gm as [l|]; simpl in *.
    - destruct Hc as (M & obj & HM & Hinit & -> & ->). subst G.
      rewrite HM in *. simpl.
      assert (_gram_matrix obj = M) as HGM.
      { apply init_OK in Hinit as (n & G' & ? & ? & ? & Hres & _ & _ & ->).
        by apply resolve_supplied_OK in Hres as (-> & _). }
      split_and!; [by exists obj|done|by intros ? [= <-]|done].
    - destruct Hc as (obj & Hinit & -> & ->). subst G. simpl.
      assert (_gram_matrix obj = identity_matrix R (default 1 ngens)) as HGM.
      { apply init_OK in Hinit as (n & G' & ? & ? & ? & Hres & _ & _ & ->).
        simpl. by injection Hres as _ <-. }
      pose proof (is_fresh (dom σ0)) as Hfresh.
      rewrite elem_of_dom, <- eq_None_not_Some in Hfresh.
      split_and!; [by exists obj|by rewrite lookup_insert_eq, HGM|done|].
      intros _. split; [done|]. intros l [M HM].
      apply lookup_insert_ne. intros <-. by rewrite Hfresh in HM. }
  assert (self' = self) as Hself by apply play_self.
  split_and!; try done.
  - by rewrite Hself.
  - by rewrite Hself.
  - apply play_answers.
  - intros l Hl. by apply play_store.
  - intros Hl. rewrite Hself. subst σ'. by rewrite play_store.
Qed.

(** C9.  [ngens] is not checked to be positive.  With [ngens = 0] and no
    [gram_matrix] the validation stage raises nothing and resolves the Gram
    matrix to the [0 x 0] identity; the constructor then returns the object
    with the empty table as soon as the naming collaborator returns the index
    set of size [0], and otherwise raises what the collaborator raises, or an
    [IndexError] should the index set have a label. *)
Theorem C9_zero_generators R (names : option NamesArg) (idx : option IndexSet) :
  resolve R (Some 0) None = OK (0, identity_matrix R 0) ∧
  nrows (identity_matrix R 0) = 0 ∧ ncols (identity_matrix R 0) = 0 ∧
  init R (Some 0) None names idx
  = match standardize_names_index_set (resolve_names 0 names idx).1 idx 0 with
    | OK (names', []) =>
        OK {| super := GradedLieConformalAlgebra_init R ∅ names'
                         (resolve_names 0 names idx).2 [] ["K"];
              _gram_matrix := identity_matrix R 0 |}
    | OK (names', _ :: _) => Raise (IndexError "matrix index out of range")
    | Raise e => Raise e
    end.
Proof.
  split_and!; try done.
  unfold __init__. simpl.
  destruct (resolve_names 0 names idx) as [names0 latex]. simpl.
  destruct (standardize_names_index_set names0 idx 0) as [[names' [|i ix]]|e];
    simpl; [done| |done].
  by rewrite bosondict_empty_matrix.
Qed.

(** C10.  Whatever [names] and [index_set] are, the central label is the
    string ['K']: the central elements given to the parent constructor are
    [('K',)], and every value of the table is [{1: {('K', 0): x}}] for
    some coefficient [x]. *)
Theorem C10_central_label_K R (ngens : option nat) (gm : option Matrix)
    (names : option NamesArg) (idx : option IndexSet)
    (obj : FreeBosonsLieConformalAlgebra) :
  init R ngens gm names idx = OK obj →
  central_elements (super obj) = ["K"] ∧
  ∀ k v, s_coeff (super obj) !! k = Some v →
         ∃ x : Scalar, v = {[1%Z := {[("K", 0%Z) := x]}]}.
Proof.
  intros (n & G & names' & ix & d & _ & _ & Hd & ->)%init_OK. simpl.
  split; [done|]. intros k v.
  apply bosondict_spec in Hd as [_ Hlook]. rewrite Hlook.
  case_decide; [|done]. unfold expected_item.
  destruct (gram_entry G ix k.1 k.2) as [x|]; [|done].
  intros [= <-]. by exists x.
Qed.

(** ** Further properties of the constructor *)

Lemma IndexSet_rank_inj ix (i j : Label) (r : nat) :
  IndexSet_rank ix i = OK r → IndexSet_rank ix j = OK r → i = j.
Proof.
  intros [_ Hi]%IndexSet_rank_lt [_ Hj]%IndexSet_rank_lt. congruence.
Qed.

Lemma IndexSet_rank_lookup ix (i : Label) (r : nat) :
  NoDup ix → ix !! r = Some i → IndexSet_rank ix i = OK r.
Proof.
  intros Hnd Hr.
  destruct (IndexSet_rank_elem ix i) as (r' & Hr' & _).
  { apply list_elem_of_lookup. by exists r. }
  rewrite Hr'. f_equal.
  apply IndexSet_rank_lt in Hr' as [_ Hr'].
  by eapply NoDup_lookup.
Qed.

Lemma weight_one_inj (x y : Scalar) : weight_one x = weight_one y → x = y.
Proof.
  assert (∀ z : Scalar,
            weight_one z !! 1%Z ≫= (λ m, m !! ("K", 0%Z)) = Some z) as Hz.
  { intros z. unfold weight_one. rewrite lookup_singleton_eq. simpl.
    apply lookup_singleton_eq. }
  intros H. pose proof (Hz x) as Hx. rewrite H, Hz in Hx. congruence.
Qed.

Lemma foldM_Raise {A B} (f : B → A → Result B) (l : list A) (b : B)
    (e : exception) :
  foldM f l b = Raise e → ∃ x b', x ∈ l ∧ f b' x = Raise e.
Proof.
  revert b. induction l as [|x l IH]; intros b; cbn [foldM]; [done|].
  destruct (f b x) as [b1|e1] eqn:Hf; simpl.
  - intros (y & b' & Hy & Hr)%IH. exists y, b'. split; [|done].
    apply elem_of_cons. by right.
  - intros [= <-]. exists x, b. split; [|done]. apply elem_of_cons. by left.
Qed.

Lemma bosondict_Raise M ix (e : exception) :
  bosondict M ix = Raise e →
  e = IndexError "matrix index out of range" ∧
  (nrows M < length ix ∨ ncols M < length ix).
Proof.
  intros (i & d1 & Hi & (j & d2 & Hj & Hitem)%foldM_Raise)%foldM_Raise.
  unfold bosondict_item, gram_entry in Hitem.
  destruct (IndexSet_rank_elem ix i Hi) as (r & Hr & Hlr).
  destruct (IndexSet_rank_elem ix j Hj) as (c & Hc & Hlc).
  rewrite Hr, Hc in Hitem. simpl in Hitem. unfold Matrix_getitem in Hitem.
  destruct (bool_decide (r < nrows M)) eqn:Hbr; simpl in Hitem.
  - destruct (bool_decide (c < ncols M)) eqn:Hbc; simpl in Hitem; [done|].
    apply bool_decide_eq_false in Hbc. injection Hitem as <-.
    split; [done|]. right. lia.
  - apply bool_decide_eq_false in Hbr. injection Hitem as <-.
    split; [done|]. left. lia.
Qed.

Lemma bosondict_lookup_position M ix d (r c : nat) (i j : Label) :
  bosondict M ix = OK d → NoDup ix → ix !! r = Some i → ix !! c = Some j →
  r < nrows M ∧ c < ncols M ∧ d !! (i, j) = Some (weight_one (entry M r c)).
Proof.
  intros Hd Hnd Hr Hc.
  assert (i ∈ ix) as Hi by (apply list_elem_of_lookup; by exists r).
  assert (j ∈ ix) as Hj by (apply list_elem_of_lookup; by exists c).
  destruct (bosondict_lookup _ _ _ _ _ Hd Hi Hj)
    as (r' & c' & Hr' & Hc' & ? & ? & ->).
  rewrite (IndexSet_rank_lookup ix i r Hnd Hr) in Hr'.
  rewrite (IndexSet_rank_lookup ix j c Hnd Hc) in Hc'.
  injection Hr' as <-. injection Hc' as <-. done.
Qed.

(** X1.  Validation is exact: a construction from a supplied matrix that
    succeeds guarantees that the matrix is symmetric, square of size [ngens]
    (its own row count when [ngens] is omitted) and has its entries in [R],
    and the object stores that very matrix. *)
Theorem X1_supplied_success_means_valid R (ngens : option nat) M
    (names : option NamesArg) (idx : option IndexSet)
    (obj : FreeBosonsLieConformalAlgebra) :
  init R ngens (Some M) names idx = OK obj →
  let n := default (dimensions M).1 ngens in
  symmetric M ∧ nrows M = n ∧ ncols M = n ∧
  (∀ i j : nat, i < n → j < n → ring_contains R (entry M i j) = true) ∧
  _gram_matrix obj = M.
Proof.
  intros (n' & G & names' & ix & d & Hres & _ & _ & ->)%init_OK n. simpl.
  apply resolve_supplied_OK in Hres as (-> & -> & Hmem & Hsym).
  apply MatrixSpace_contains_spec in Hmem as (Hr & Hc & Hin).
  apply is_symmetric_spec in Hsym. by split_and!.
Qed.

(** X2.  Without [gram_matrix] nothing is validated: the construction
    succeeds for every ring and every [ngens] as soon as the naming
    collaborator returns an index set of size [ngens], and the table is the
    orthonormal one: the coefficient of [(i, j)] is the one of the ring when
    [i = j] and its zero otherwise, the zeros being stored too. *)
Theorem X2_default_table_orthonormal R (ngens : option nat)
    (names : option NamesArg) (idx : option IndexSet)
    (names' : option (list string)) ix :
  let n := default 1 ngens in
  standardize_names_index_set (resolve_names n names idx).1 idx n
    = OK (names', ix) →
  length ix = n →
  ∃ obj, init R ngens None names idx = OK obj ∧
         index_set (super obj) = ix ∧
         ∀ i j : Label, i ∈ ix → j ∈ ix →
           s_coeff (super obj) !! (i, j)
           = Some {[1%Z := {[("K", 0%Z) :=
                      if decide (i = j) then ring_one R else ring_zero R]}]}.
Proof.
  intros n Hst Hlen.
  assert (resolve R ngens None = OK (n, identity_matrix R n)) as Hres
    by (by destruct ngens).
  destruct (bosondict_succeeds (identity_matrix R n) ix) as [d Hd];
    [simpl; lia..|].
  eexists. split; [by eapply init_intro|]. simpl. split; [done|].
  intros i j Hi Hj.
  destruct (bosondict_lookup _ _ _ _ _ Hd Hi Hj)
    as (r & c & Hr & Hc & _ & _ & ->).
  do 2 f_equal. unfold weight_one. do 2 f_equal. simpl.
  destruct (decide (i = j)) as [->|Hne].
  - rewrite Hr in Hc. injection Hc as ->. by rewrite bool_decide_eq_true_2.
  - rewrite bool_decide_eq_false_2; [done|]. intros ->.
    by apply Hne, (IndexSet_rank_inj ix i j c).
Qed.

(** X3.  The table can be read by position: when the labels of the index set
    are distinct, the entry of the labels at positions [r] and [c] is
    [{1: {('K', 0): M[r, c]}}], and both positions are within the matrix. *)
Theorem X3_table_entry_by_position R (ngens : option nat)
    (gm : option Matrix) (names : option NamesArg) (idx : option IndexSet)
    (obj : FreeBosonsLieConformalAlgebra) (r c : nat) (i j : Label) :
  init R ngens gm names idx = OK obj →
  NoDup (index_set (super obj)) →
  index_set (super obj) !! r = Some i →
  index_set (super obj) !! c = Some j →
  r < nrows (_gram_matrix obj) ∧ c < ncols (_gram_matrix obj) ∧
  s_coeff (super obj) !! (i, j)
  = Some {[1%Z := {[("K", 0%Z) := entry (_gram_matrix obj) r c]}]}.
Proof.
  intros (n & G & names' & ix & d & _ & _ & Hd & ->)%init_OK. simpl.
  intros Hnd Hr Hc. by eapply bosondict_lookup_position.
Qed.

(** X4.  The Gram matrix can be recovered from the table: two constructions
    that end with the same index set, of distinct labels, one per row of
    each Gram matrix, and with the same table have equal Gram matrices
    ([==]: same shape, same entries). *)
Theorem X4_table_determines_gram_matrix R1 R2 (ngens1 ngens2 : option nat)
    (gm1 gm2 : option Matrix) (names1 names2 : option NamesArg)
    (idx1 idx2 : option IndexSet) (obj1 obj2 : FreeBosonsLieConformalAlgebra) :
  init R1 ngens1 gm1 names1 idx1 = OK obj1 →
  init R2 ngens2 gm2 names2 idx2 = OK obj2 →
  index_set (super obj1) = index_set (super obj2) →
  NoDup (index_set (super obj1)) →
  length (index_set (super obj1)) = nrows (_gram_matrix obj1) →
  length (index_set (super obj2)) = nrows (_gram_matrix obj2) →
  s_coeff (super obj1) = s_coeff (super obj2) →
  Matrix_eq (_gram_matrix obj1) (_gram_matrix obj2).
Proof.
  intros (n1 & G1 & ? & ix1 & d1 & Hres1 & _ & Hd1 & ->)%init_OK
         (n2 & G2 & ? & ix2 & d2 & Hres2 & _ & Hd2 & ->)%init_OK.
  simpl. intros <- Hnd Hl1 Hl2 <-.
  apply resolve_OK in Hres1 as (_ & Hr1 & Hc1).
  apply resolve_OK in Hres2 as (_ & Hr2 & Hc2).
  split; [lia|]. split; [lia|].
  intros r c Hr Hc.
  destruct (lookup_lt_is_Some_2 ix1 r) as [i Hi]; [lia|].
  destruct (lookup_lt_is_Some_2 ix1 c) as [j Hj]; [lia|].
  destruct (bosondict_lookup_position _ _ _ r c i j Hd1 Hnd Hi Hj)
    as (_ & _ & Ht1).
  destruct (bosondict_lookup_position _ _ _ r c i j Hd2 Hnd Hi Hj)
    as (_ & _ & Ht2).
  rewrite Ht1 in Ht2. apply (inj Some) in Ht2. by apply weight_one_inj.
Qed.

(** X6.  LaTeX names are made up only when neither [names] nor [index_set]
    is given: then there is one, [\alpha_{i}], for each row [i] of the Gram
    matrix, followed by ['K']; otherwise the parent constructor gets
    [latex_names = None]. *)
Theorem X6_latex_names R (ngens : option nat) (gm : option Matrix)
    (names : option NamesArg) (idx : option IndexSet)
    (obj : FreeBosonsLieConformalAlgebra) :
  init R ngens gm names idx = OK obj →
  match names, idx with
  | None, None =>
      ∃ l : list string,
        latex_names (super obj) = Some (l ++ ["K"]) ∧
        length l = nrows (_gram_matrix obj) ∧
        ∀ i : nat, i < length l →
          l !! i = Some ("\alpha_{" +:+ pretty i +:+ "}")
  | _, _ => latex_names (super obj) = None
  end.
Proof.
  intros (n & G & names' & ix & d & Hres & _ & _ & ->)%init_OK. simpl.
  apply resolve_OK in Hres as (_ & Hn & _).
  destruct names, idx; try done. simpl.
  eexists. split; [done|]. rewrite length_fmap, length_seq. split; [done|].
  intros i Hi. rewrite list_lookup_fmap, lookup_seq_lt by done. done.
Qed.

(** X7.  Up to the call of the parent constructor (lines 113-139) the
    constructor has three ways to fail and no other: the [ValueError] of the
    validation, for a supplied matrix that is outside the matrix space or not
    symmetric; an exception of the naming collaborator, passed on as it is;
    and an [IndexError] from reading the Gram matrix, only when the
    collaborator returns more labels than [ngens].  Each of them is then the
    exception of the constructor.  What the parent constructor may raise
    comes after and is no part of this. *)
Theorem X7_failure_modes_before_parent R (ngens : option nat)
    (gm : option Matrix) (names : option NamesArg) (idx : option IndexSet)
    (e : exception) :
  ('(n, G) ← resolve R ngens gm;
   '(_, ix) ← standardize_names_index_set (resolve_names n names idx).1 idx n;
   bosondict G ix) = Raise e →
  let n := match ngens, gm with
           | Some k, _ => k
           | None, Some M => (dimensions M).1
           | None, None => 1
           end in
  init R ngens gm names idx = Raise e ∧
  ((∃ M, gm = Some M ∧ e = error n M ∧
         (MatrixSpace_contains R n n M = false ∨ is_symmetric M = false)) ∨
   standardize_names_index_set (resolve_names n names idx).1 idx n = Raise e ∨
   (∃ names' ix,
      standardize_names_index_set (resolve_names n names idx).1 idx n
        = OK (names', ix) ∧
      n < length ix ∧ e = IndexError "matrix index out of range")).
Proof.
  intros Hpre n. unfold __init__.
  destruct (resolve R ngens gm) as [[n' G]|e'] eqn:Hres; simpl in *.
  - assert (n' = n) as ->.
    { destruct gm as [M|].
      - apply resolve_supplied_OK in Hres as (_ & -> & _). by destruct ngens.
      - injection Hres as <- _. by destruct ngens. }
    apply resolve_OK in Hres as (_ & Hr & Hc).
    destruct (resolve_names n names idx) as [names0 latex]. simpl in *.
    destruct (standardize_names_index_set names0 idx n) as [[names' ix]|e'];
      simpl in *; [|injection Hpre as <-; split; [done|by right; left]].
    rewrite Hpre. simpl. split; [done|]. right; right. exists names', ix.
    apply bosondict_Raise in Hpre as [-> Hlen]. split_and!; [done| |done]. lia.
  - injection Hpre as <-. split; [done|]. left. destruct gm as [M|]; [|done].
    exists M. split; [done|]. unfold resolve_gram_matrix in Hres.
    replace (match ngens with None => _ | Some m => m end) with n in Hres
      by (by destruct ngens).
    destruct (MatrixSpace_contains R n n M) eqn:Hmem; simpl in Hres.
    + destruct (is_symmetric M) eqn:Hsym; simpl in Hres; [done|].
      injection Hres as <-. split; [done|by right].
    + injection Hres as <-. split; [done|by left].
Qed.

End Properties.

(** * Properties of the packaging script *)

(** ** Patterns *)

Lemma fnmatch_from_star_unfold (pat name : string) :
  fnmatch_from (String star pat) name
  = fnmatch_from pat name
    || match name with
       | EmptyString => false
       | String _ name' => fnmatch_from (String star pat) name'
       end.
Proof. by destruct name. Qed.

Lemma fnmatch_from_star (pat name : string) :
  fnmatch_from (String star pat) name = true ↔
  ∃ a b, name = a +:+ b ∧ fnmatch_from pat b = true.
Proof.
  split.
  - induction name as [|c name IH]; rewrite fnmatch_from_star_unfold;
      intros [H|H]%orb_true_iff; try done.
    + by exists EmptyString, EmptyString.
    + by exists EmptyString, (String c name).
    + destruct (IH H) as (a & b & -> & Hb). by exists (String c a), b.
  - intros (a & b & -> & Hb). induction a as [|c a IH].
    + change (EmptyString +:+ b) with b.
      rewrite fnmatch_from_star_unfold, Hb. done.
    + change (String c a +:+ b) with (String c (a +:+ b)).
      rewrite fnmatch_from_star_unfold, IH. apply orb_true_r.
Qed.

Lemma fnmatch_from_literal (lit pat name : string) :
  is_literal lit = true →
  fnmatch_from (lit +:+ pat) name = true ↔
  ∃ b, name = lit +:+ b ∧ fnmatch_from pat b = true.
Proof.
  revert name. induction lit as [|c lit IH]; intros name Hlit.
  - simpl. split; [by exists name|by intros (b & -> & ?)].
  - simpl in Hlit.
    apply andb_true_iff in Hlit as [[Hs Hq]%andb_true_iff Hlit].
    apply negb_true_iff in Hs, Hq.
    change (String c lit +:+ pat) with (String c (lit +:+ pat)).
    cbn [fnmatch_from]. rewrite Hs, Hq.
    destruct name as [|c' name]; [split; [done|by intros (b & ? & _)]|].
    rewrite andb_true_iff, Ascii.eqb_eq, (IH name Hlit). split.
    + intros [-> (b & -> & Hb)]. by exists b.
    + intros (b & [= -> ->] & Hb). split; [done|by exists b].
Qed.

Lemma fnmatch_from_star_only (name : string) :
  fnmatch_from (String star EmptyString) name = true.
Proof.
  apply fnmatch_from_star. exists name, EmptyString. split; [|done].
  induction name as [|c name IH]; [done|].
  change (String c name +:+ EmptyString) with (String c (name +:+ EmptyString)).
  by rewrite <- IH.
Qed.

(** A name matches [*lit*] exactly when it contains [lit]. *)
Lemma fnmatch_contains (lit name : string) :
  is_literal lit = true →
  fnmatch name (String star (lit +:+ String star EmptyString)) = true ↔
  ∃ a b, name = a +:+ lit +:+ b.
Proof.
  intros Hlit. unfold fnmatch. rewrite fnmatch_from_star. split.
  - intros (a & b & -> & (b' & -> & _)%(fnmatch_from_literal _ _ _ Hlit)).
    by exists a, b'.
  - intros (a & b & ->). exists a, (lit +:+ b). split; [done|].
    apply (fnmatch_from_literal _ _ _ Hlit). exists b. split; [done|].
    apply fnmatch_from_star_only.
Qed.

(** ** The closure [ignore] *)

(** X8.  The pattern [*/build/pkgs/*] matches exactly the paths that contain
    [/build/pkgs/], so a package directory and everything below it; for such
    a path [ignore] returns [['src']] whatever the directory holds: [src] is
    named even when the directory has none, and [.git], [upstream], [logs]
    and the like are not left out there. *)
Theorem X8_ignore_in_package_directories (path : string) :
  (fnmatch path "*/build/pkgs/*" = true ↔
   ∃ a b, path = a +:+ "/build/pkgs/" +:+ b) ∧
  ((∃ a b, path = a +:+ "/build/pkgs/" +:+ b) →
   ∀ names : list string, ignore path names = ["src"]).
Proof.
  assert (fnmatch path "*/build/pkgs/*" = true ↔
          ∃ a b, path = a +:+ "/build/pkgs/" +:+ b) as Hmatch
    by (by apply (fnmatch_contains "/build/pkgs/")).
  split; [done|]. intros Hsub%Hmatch names. unfold ignore. by rewrite Hsub.
Qed.

(** X9.  For a path that does not contain [/build/pkgs/], [ignore] returns
    the names of the directory that are among the ten fixed names, in their
    order: it invents no name, it never leaves out [src] or any name outside
    the ten, and it leaves its own result unchanged. *)
Theorem X9_ignore_elsewhere (path : string) (names : list string) :
  (¬ ∃ a b, path = a +:+ "/build/pkgs/" +:+ b) →
  (∀ name, name ∈ ignore path names ↔ name ∈ names ∧ name ∈ ignored_names) ∧
  sublist (ignore path names) names ∧
  ("src" ∉ ignore path names) ∧
  ignore path (ignore path names) = ignore path names.
Proof.
  intros Hno.
  assert (fnmatch path "*/build/pkgs/*" = false) as Hm.
  { apply not_true_is_false. intros H. apply Hno.
    by apply (fnmatch_contains "/build/pkgs/"). }
  unfold ignore. rewrite Hm. split_and!.
  - intros name. rewrite list_elem_of_filter. tauto.
  - apply sublist_filter.
  - rewrite list_elem_of_filter. intros [Hsrc _]. revert Hsrc.
    unfold ignored_names. rewrite !elem_of_cons. rewrite elem_of_nil.
    intros H. repeat destruct H as [H|H]; done.
  - apply list_filter_filter_l. tauto.
Qed.

(** ** The commands *)

Section SetupPyProperties.

Variable World : Type.
Variable HERE : string.
Variable platform_system : string.
Variable platform_machine : string.
Variable environ : gmap string string.
Variable str_strip : string → string.
Variable path_exists : World → string → bool.
Variable file_read : World → string → Outcome string.
Variable copytree :
  string → string → (string → list string → list string) → World →
  Outcome unit * World.
Variable copyfile : string → string → World → Outcome unit * World.
Variable system : string → World → Z * World.
Variable super_run : World → Outcome unit * World.

Implicit Types (m : Machine World) (e : py_exception).

Local Abbreviation create_root :=
  (_create_writable_sage_root World HERE platform_system platform_machine
     environ str_strip path_exists file_read copytree).
Local Abbreviation locate :=
  (locate_sage_root World HERE platform_system platform_machine
     environ str_strip path_exists file_read copytree).
Local Abbreviation run_script :=
  (run_build_py World HERE platform_system platform_machine
     environ str_strip path_exists file_read copytree copyfile system
     super_run).
Local Abbreviation root_name :=
  (sage_root_name platform_system platform_machine).
Local Abbreviation version_file := (path_join HERE ["VERSION.txt"]).
Local Abbreviation env_config_src := (λ root : string,
  path_join root ["src"; "bin"; "sage-env-config"]).
Local Abbreviation env_config_dst :=
  (path_join HERE ["bin"; "sage-env-config"]).
Local Abbreviation conf_src := (λ root : string,
  path_join root ["pkgs"; "sage-conf"; "_sage_conf"; "_conf.py"]).
Local Abbreviation conf_dst := (path_join HERE ["_sage_conf"; "_conf.py"]).

Local Arguments sage_root_name : simpl never.

Ltac io_unfold :=
  unfold run_build_py, locate_sage_root, configure, copy_generated_files,
    _create_writable_sage_root, try_except, throw, print, stdout_flush,
    os_path_exists, open_read, shutil_copytree, shutil_copyfile, os_system,
    setuptools_build_py_run, record,
    mbind, IO_bind, io_bind, mret, IO_ret, io_ret.

(** X10.  Without [HOME] in the environment the writable root cannot be
    made, even when [DOT_SAGE] is set: the default of the lookup of
    [DOT_SAGE] joins [None] with ['.sage'] first, which is a [TypeError],
    raised before anything is read, copied or run. *)
Theorem X10_home_unset_is_a_TypeError m :
  environ !! "HOME" = None →
  _create_writable_sage_root World HERE platform_system platform_machine
    environ str_strip path_exists file_read copytree m
  = (Throw (TypeError
       "expected str, bytes or os.PathLike object, not NoneType"), m) ∧
  run_script false m
  = (Throw (TypeError
       "expected str, bytes or os.PathLike object, not NoneType"), m).
Proof. intros Hhome. io_unfold. rewrite Hhome. done. Qed.

(** X11.  A root that is already configured is used as it is: when
    [config.status] exists under [SAGE_ROOT], [_create_writable_sage_root]
    returns [SAGE_ROOT] after reading [VERSION.txt] only; no tree is copied
    and the world is unchanged. *)
Theorem X11_configured_root_is_reused m (home text : string) :
  environ !! "HOME" = Some home →
  file_read (world World m) version_file = Return text →
  let DOT_SAGE := default (path_join home [".sage"]) (environ !! "DOT_SAGE") in
  let SAGE_ROOT := path_join DOT_SAGE [root_name (str_strip text)] in
  path_exists (world World m) (path_join SAGE_ROOT ["config.status"]) = true →
  create_root m
  = (Return SAGE_ROOT,
     {| world := world World m;
        trace := trace World m ++ [Open_read version_file] |}).
Proof.
  intros Hhome Hread D R Hex. io_unfold. rewrite Hhome. simpl.
  rewrite Hread. simpl. subst D R. simpl in Hex. by rewrite Hex.
Qed.

(** X12.  A root that is not configured is copied once, from the relative
    path [sage_root] to [SAGE_ROOT] with the closure [ignore]; if the copy
    raises, whatever it raises comes out as the [SetupError] that names
    [SAGE_ROOT] and quotes the message, and otherwise [SAGE_ROOT] is
    returned. *)
Theorem X12_unconfigured_root_is_copied m (home text : string) :
  environ !! "HOME" = Some home →
  file_read (world World m) version_file = Return text →
  let DOT_SAGE := default (path_join home [".sage"]) (environ !! "DOT_SAGE") in
  let SAGE_ROOT := path_join DOT_SAGE [root_name (str_strip text)] in
  path_exists (world World m) (path_join SAGE_ROOT ["config.status"]) = false →
  create_root m
  = let m' w := {| world := w;
                   trace := trace World m ++ [Open_read version_file;
                                              Copytree "sage_root" SAGE_ROOT] |} in
    match copytree "sage_root" SAGE_ROOT ignore (world World m) with
    | (Return _, w) => (Return SAGE_ROOT, m' w)
    | (Throw e, w) =>
        (Throw (SetupError
           ("the directory SAGE_ROOT=" +:+ SAGE_ROOT +:+
            " already exists but it is not configured (" +:+
            exception_str e +:+ "). " +:+
            "Please either remove it and try again, or install in editable mode (pip install -e).")),
         m' w)
    end.
Proof.
  intros Hhome Hread D R Hex. io_unfold. rewrite Hhome. simpl.
  rewrite Hread. simpl. subst D R. simpl in Hex. rewrite Hex. simpl.
  destruct (copytree _ _ _ _) as [[[]|e] w]; simpl; by rewrite <- app_assoc.
Qed.

(** X13.  Whenever [_create_writable_sage_root] returns, the root lies
    directly under [DOT_SAGE] (by default [.sage] under [HOME]) and is named
    by the version and the architecture,
    [sage-<version>-<system>-<machine>-conda]; it was found configured, or
    it has just been copied to. *)
Theorem X13_location_of_the_root m m' (root : string) :
  create_root m = (Return root, m') →
  ∃ home text : string,
    environ !! "HOME" = Some home ∧
    file_read (world World m) version_file = Return text ∧
    let DOT_SAGE :=
      default (path_join home [".sage"]) (environ !! "DOT_SAGE") in
    root = DOT_SAGE +:+
           (if bool_decide (DOT_SAGE = "") || endswith_sep DOT_SAGE
            then "" else "/") +:+
           "sage-" +:+ str_strip text +:+ "-" +:+
           (platform_system +:+ "-" +:+ platform_machine) +:+ "-conda" ∧
    (path_exists (world World m) (path_join root ["config.status"]) = true ∧
     world World m' = world World m
     ∨ Copytree "sage_root" root ∈ trace World m').
Proof.
  io_unfold. destruct (environ !! "HOME") as [home|] eqn:Hhome; [|done].
  simpl. destruct (file_read (world World m) version_file) as [text|e]
    eqn:Hread; [|done].
  simpl.
  set (D := default (path_join home [".sage"]) (environ !! "DOT_SAGE")).
  set (R := path_join D [root_name (str_strip text)]).
  assert (R = D +:+ (if bool_decide (D = "") || endswith_sep D
                     then "" else "/") +:+
              "sage-" +:+ str_strip text +:+ "-" +:+
              (platform_system +:+ "-" +:+ platform_machine) +:+ "-conda")
    as HR.
  { subst R. unfold path_join. cbn [foldl]. unfold path_join2.
    change (startswith_sep (root_name (str_strip text))) with false.
    cbv iota. by destruct (bool_decide (D = "") || endswith_sep D). }
  destruct (path_exists (world World m) (path_join R ["config.status"]))
    eqn:Hex; simpl.
  - intros [= <- <-]. exists home, text. split_and!; try done.
    left. by split.
  - destruct (copytree "sage_root" R ignore (world World m)) as [[[]|e] w];
      simpl; [|done].
    intros [= <- <-]. exists home, text. split_and!; try done.
    right. simpl. apply elem_of_app. right. by apply list_elem_of_singleton.
Qed.

(** After the root is located, the run goes on in the machine that locating
    it left. *)
Lemma run_after_locate (editable_mode : bool) m m1 (root : string) :
  locate editable_mode m = (Return root, m1) →
  run_script editable_mode m
  = (configure World environ path_exists system root;;
     copy_generated_files World HERE copyfile editable_mode root;;
     setuptools_build_py_run World super_run) m1.
Proof.
  intros Hloc. unfold run_build_py, mbind, IO_bind, io_bind at 1.
  by rewrite Hloc.
Qed.

Lemma locate_editable m :
  locate true m = (Return (path_join HERE ["sage_root"]), m).
Proof. done. Qed.

(** X14.  Without an active conda environment ([CONDA_PREFIX] unset or
    empty) the run stops with a [SetupError] before any command is run,
    anything is printed or any file is copied; the check comes after the
    root is located, so outside editable mode the root may already have been
    copied, and in editable mode nothing at all has happened. *)
Theorem X14_no_conda_environment (editable_mode : bool) m m1 (root : string) :
  default "" (environ !! "CONDA_PREFIX") = "" →
  locate_sage_root World HERE platform_system platform_machine environ
    str_strip path_exists file_read copytree editable_mode m
  = (Return root, m1) →
  run_script editable_mode m
  = (Throw (SetupError
       "No conda environment is active. See https://doc.sagemath.org/html/en/installation/conda.html on how to get started."),
     m1) ∧
  (editable_mode = true → m1 = m).
Proof.
  intros Hconda Hloc. split.
  - rewrite (run_after_locate _ _ _ _ Hloc). io_unfold.
    by rewrite Hconda.
  - intros ->. rewrite locate_editable in Hloc. by injection Hloc.
Qed.

(** X15.  When the configure script exits with an error and has written no
    [config.status], the run prints the error line, runs the command that
    lists the missing prerequisites (whose exit status is not looked at) and
    raises [SetupError('configure failed')]; no file is copied and the
    inherited build is not run. *)
Theorem X15_configure_failure (editable_mode : bool) m m1 (root : string)
    (status status' : Z) (w2 w3 : World) :
  default "" (environ !! "CONDA_PREFIX") ≠ "" →
  locate editable_mode m = (Return root, m1) →
  system (configure_command root) (world World m1) = (status, w2) →
  status ≠ 0%Z →
  path_exists w2 (path_join root ["config.status"]) = false →
  system (prerequisites_command root) w2 = (status', w3) →
  run_script editable_mode m
  = (Throw (SetupError "configure failed"),
     {| world := w3;
        trace := trace World m1 ++
                 [Print ("Running " +:+ configure_command root); Flush;
                  System (configure_command root);
                  Print "Error: The configure script has failed; this may be caused by missing build prerequisites.";
                  Flush;
                  System (prerequisites_command root)] |}).
Proof.
  intros Hconda Hloc Hsys Hstatus Hex Hsys'.
  rewrite (run_after_locate _ _ _ _ Hloc). io_unfold.
  rewrite bool_decide_eq_false_2 by done. simpl.
  rewrite Hsys. simpl. rewrite bool_decide_eq_true_2 by done. simpl.
  rewrite Hex. simpl. rewrite Hsys'. simpl.
  by rewrite <- !app_assoc.
Qed.

(** X16.  Outside editable mode, when the configure script exits with [0],
    or with an error but with [config.status] written, the run goes on:
    [_conf.py] is copied, then [sage-env-config], then the inherited build is
    run and its result is the result of the run.  A failed configure that
    left a [config.status] costs a warning line and nothing else. *)
Theorem X16_run_completes m m1 (root : string) (status : Z)
    (w2 w3 w4 w5 : World) (r : Outcome unit) :
  default "" (environ !! "CONDA_PREFIX") ≠ "" →
  create_root m = (Return root, m1) →
  system (configure_command root) (world World m1) = (status, w2) →
  status = 0%Z ∨ path_exists w2 (path_join root ["config.status"]) = true →
  copyfile (conf_src root) conf_dst w2 = (Return (), w3) →
  copyfile (env_config_src root) env_config_dst w3 = (Return (), w4) →
  super_run w4 = (r, w5) →
  run_script false m
  = (r,
     {| world := w5;
        trace := trace World m1 ++
                 [Print ("Running " +:+ configure_command root); Flush;
                  System (configure_command root)] ++
                 (if bool_decide (status = 0%Z) then []
                  else [Print "Warning: A configuration has been written, but the configure script has exited with an error. Carefully check any messages above before continuing."]) ++
                 [Copyfile (conf_src root) conf_dst;
                  Copyfile (env_config_src root) env_config_dst;
                  Super_run] |}).
Proof.
  intros Hconda Hloc Hsys Hgo Hc1 Hc2 Hsuper.
  rewrite (run_after_locate false _ _ _ Hloc). io_unfold.
  rewrite bool_decide_eq_false_2 by done. simpl.
  rewrite Hsys. simpl.
  destruct (decide (status = 0%Z)) as [->|Hne].
  - simpl. rewrite Hc1. simpl. rewrite Hc2. simpl. rewrite Hsuper.
    by rewrite <- !app_assoc.
  - destruct Hgo as [?|Hex]; [done|].
    rewrite bool_decide_eq_true_2, (bool_decide_eq_false_2 (status = 0%Z))
      by done.
    simpl. rewrite Hex. simpl. rewrite Hc1. simpl. rewrite Hc2. simpl.
    rewrite Hsuper. by rewrite <- !app_assoc.
Qed.

(** X17.  In editable mode the root is the [sage_root] directory beside the
    script: [VERSION.txt] is not read, no tree is copied and [_conf.py] is
    not copied; after the configure script only [sage-env-config] is copied
    before the inherited build is run. *)
Theorem X17_editable_run m (status : Z) (w2 w3 w4 : World)
    (r : Outcome unit) :
  default "" (environ !! "CONDA_PREFIX") ≠ "" →
  let root := path_join HERE ["sage_root"] in
  system (configure_command root) (world World m) = (status, w2) →
  status = 0%Z ∨ path_exists w2 (path_join root ["config.status"]) = true →
  copyfile (env_config_src root) env_config_dst w2 = (Return (), w3) →
  super_run w3 = (r, w4) →
  run_script true m
  = (r,
     {| world := w4;
        trace := trace World m ++
                 [Print ("Running " +:+ configure_command root); Flush;
                  System (configure_command root)] ++
                 (if bool_decide (status = 0%Z) then []
                  else [Print "Warning: A configuration has been written, but the configure script has exited with an error. Carefully check any messages above before continuing."]) ++
                 [Copyfile (env_config_src root) env_config_dst;
                  Super_run] |}).
Proof.
  intros Hconda root Hsys Hgo Hc Hsuper.
  rewrite (run_after_locate true _ _ _ (locate_editable m)). io_unfold.
  rewrite bool_decide_eq_false_2 by done. simpl.
  fold root. rewrite Hsys. simpl.
  destruct (decide (status = 0%Z)) as [->|Hne].
  - simpl. rewrite Hc. simpl. rewrite Hsuper. by rewrite <- !app_assoc.
  - destruct Hgo as [?|Hex]; [done|].
    rewrite bool_decide_eq_true_2, (bool_decide_eq_false_2 (status = 0%Z))
      by done.
    simpl. rewrite Hex. simpl. rewrite Hc. simpl. rewrite Hsuper.
    by rewrite <- !app_assoc.
Qed.

(** Membership in an explicit list of events. *)
Ltac event_not_in_list H :=
  rewrite ?elem_of_cons, ?elem_of_nil in H;
  repeat (destruct H as [H|H]); solve [discriminate H | contradiction].

Ltac event_in_list :=
  rewrite ?elem_of_cons; repeat first [left; reflexivity | right].

Ltac each_event_in_list H :=
  rewrite ?elem_of_cons, ?elem_of_nil in H;
  repeat (destruct H as [->|H]); solve [done | contradiction].

(** X18.  Whatever the outside does, the run only adds to the trace, and the
    inherited build comes last and late: it is run at most once, as the last
    event, directly after [sage-env-config] has been copied and some time
    after the configure command has been run; a run that returns normally
    has run it.  In editable mode the run never reads [VERSION.txt], never
    copies a tree, and copies no file but [sage-env-config]. *)
Theorem X18_inherited_build_comes_last (editable_mode : bool) m m'
    (r : Outcome unit) :
  run_script editable_mode m = (r, m') →
  ∃ evs : list event,
    trace World m' = trace World m ++ evs ∧
    (Super_run ∈ evs →
     ∃ (root : string) (pre : list event),
       evs = pre ++ [Copyfile (env_config_src root) env_config_dst;
                     Super_run] ∧
       System (configure_command root) ∈ pre ∧ Super_run ∉ pre) ∧
    (r = Return () → Super_run ∈ evs) ∧
    (editable_mode = true →
     ∀ ev, ev ∈ evs →
       match ev with
       | Open_read _ | Copytree _ _ => False
       | Copyfile _ dst => dst = env_config_dst
       | _ => True
       end).
Proof.
  io_unfold. destruct editable_mode; simpl.
  all: repeat first
    [ progress simpl
    | match goal with
      | |- context [environ !! "HOME"] =>
          destruct (environ !! "HOME") as [?home|] eqn:?
      | |- context [bool_decide ?P] => destruct (bool_decide P) eqn:?
      | |- context [file_read ?w ?p] => destruct (file_read w p) eqn:?
      | |- context [path_exists ?w ?p] => destruct (path_exists w p) eqn:?
      | |- context [copytree ?a ?b ?c ?w] =>
          destruct (copytree a b c w) as [[[]|?] ?] eqn:?
      | |- context [system ?c ?w] => destruct (system c w) as [? ?] eqn:?
      | |- context [copyfile ?a ?b ?w] =>
          destruct (copyfile a b w) as [[[]|?] ?] eqn:?
      | |- context [super_run ?w] =>
          destruct (super_run w) as [[[]|?] ?] eqn:?
      end ].
  all: intros [= <- <-]; simpl.
  all: eexists; (split; [rewrite <- ?app_assoc; simpl; try reflexivity;
                         by rewrite app_nil_r|]).
  all: split_and!.
  all: match goal with
       | |- Super_run ∈ _ → _ =>
           intros Hin;
           first
             [ exfalso; event_not_in_list Hin
             | match goal with
               | |- ∃ root pre, ?l = _ ∧ _ =>
                   match l with
                   | context [System (configure_command ?root)] =>
                       exists root, (take (length l - 2) l);
                       split; [reflexivity|]; cbn [firstn length Nat.sub];
                       split; [event_in_list|];
                       let H := fresh in intros H; event_not_in_list H
                   end
               end ]
       | |- Throw _ = Return _ → _ => intros [=]
       | |- Return _ = Return _ → _ => intros _; event_in_list
       | |- false = true → _ => intros [=]
       | |- true = true → _ => intros _ ev Hev; each_event_in_list Hev
       end.
Qed.

End SetupPyProperties.

(** * The model at concrete inputs *)

(** The instance of the naming collaborator resolves an index set of size
    [ngens] with distinct labels, or raises. *)
Lemma reference_naming_spec (names : option NamesArg) (idx : option IndexSet)
    (ngens : nat) (names' : option (list string)) (ix : IndexSet) :
  reference_naming names idx ngens = OK (names', ix) →
  length ix = ngens ∧ NoDup ix.
Proof.
  unfold reference_naming.
  case_bool_decide as Hsize; [done|].
  destruct (match expand_names names ngens with
            | Some l => bool_decide (length l ≠ ngens)
            | None => false
            end); [done|].
  case_bool_decide as Hnd; [|done].
  by intros [= _ <-].
Qed.

(** The constructor on the inputs of the docstring. *)
Example FreeBosons_default : FreeBosons ZZ None None None None = OK bosons1.
Proof. vm_compute. reflexivity. Qed.

Example FreeBosons_gram2 :
  FreeBosons ZZ (Some 2) (Some gram2) None None = OK bosons2.
Proof. vm_compute. reflexivity. Qed.

Example FreeBosons_alpha_beta :
  FreeBosons ZZ None (Some (identity_matrix ZZ 2))
    (Some (NamesStr "alpha,beta")) None
  = OK {| super :=
            GradedLieConformalAlgebra_init ZZ
              (<[(LStr "alpha", LStr "alpha") := weight_one 1%Z]>
                 (<[(LStr "alpha", LStr "beta") := weight_one 0%Z]>
                    (<[(LStr "beta", LStr "alpha") := weight_one 0%Z]>
                       (<[(LStr "beta", LStr "beta") := weight_one 1%Z]> ∅))))
              (Some ["alpha"; "beta"]) None [LStr "alpha"; LStr "beta"] ["K"];
          _gram_matrix := identity_matrix ZZ 2 |}.
Proof. vm_compute. reflexivity. Qed.

Example FreeBosons_no_generators :
  FreeBosons ZZ (Some 0) None None None
  = OK {| super := GradedLieConformalAlgebra_init ZZ ∅ (Some []) (Some ["K"])
                     [] ["K"];
          _gram_matrix := identity_matrix ZZ 0 |}.
Proof. vm_compute. reflexivity. Qed.

Example FreeBosons_repr :
  (_repr_ reference_gens_str bosons1).1
  = "The free Bosons Lie conformal algebra with generators (alpha, K) over Integer Ring".
Proof. vm_compute. reflexivity. Qed.

Example FreeBosons_wrong_size :
  FreeBosons ZZ (Some 2) (Some one1) None None
  = Raise (ValueError
      "the gram_matrix should be a symmetric 2 x 2 matrix, got 1").
Proof. vm_compute. reflexivity. Qed.

Lemma gram2_symmetric : symmetric gram2.
Proof. apply is_symmetric_spec. vm_compute. reflexivity. Qed.

Lemma skew2_not_symmetric : ¬ symmetric skew2.
Proof.
  intros Hsym%is_symmetric_spec. vm_compute in Hsym. discriminate.
Qed.

Lemma NoDup_alpha01 : NoDup [LStr "alpha0"; LStr "alpha1"].
Proof. apply (bool_decide_unpack _). vm_compute. exact I. Qed.

Lemma C1_witness :
  ∃ obj, FreeBosons ZZ (Some 2) (Some gram2) None None = OK obj ∧
         (gram_matrix obj).1 = gram2.
Proof.
  apply (C1_symmetric_gram_matrix_accepted rows_str reference_naming
           ZZ 2 gram2 None None (Some ["alpha0"; "alpha1"])
           [LStr "alpha0"; LStr "alpha1"]).
  - exact gram2_symmetric.
  - vm_compute. reflexivity.
  - vm_compute. reflexivity.
  - reflexivity.
Defined.

Lemma C2_witness :
  symmetric gram2 ∧
  MatrixSpace_contains ZZ (nrows gram2) (nrows gram2) gram2 = true ∧
  resolve_gram_matrix rows_str ZZ None (Some gram2) = OK (2, gram2) ∧
  FreeBosons ZZ None (Some gram2) None None = OK bosons2 ∧
  ((gram_matrix bosons2).1 = gram2 ∧
   ∃ names', reference_naming (resolve_names 2 None None).1 None 2
             = OK (names', index_set (super bosons2))) ∧
  FreeBosons ZZ None None None None = OK bosons1 ∧
  (gram_matrix bosons1).1 = identity_matrix ZZ 1.
Proof.
  assert (MatrixSpace_contains ZZ (nrows gram2) (nrows gram2) gram2 = true)
    as Hmem by (vm_compute; reflexivity).
  assert (FreeBosons ZZ None (Some gram2) None None = OK bosons2)
    as Hinit by (vm_compute; reflexivity).
  destruct (C2_default_resolution rows_str reference_naming ZZ gram2
              None None None)
    as (_ & _ & _ & _ & _ & Hdefault & _ & Hinfer & _ & Hinferred).
  split_and!.
  - exact gram2_symmetric.
  - exact Hmem.
  - exact (Hinfer gram2_symmetric Hmem).
  - exact Hinit.
  - exact (proj1 (Hinferred bosons2 Hinit)).
  - exact (proj2 (Hinferred bosons2 Hinit)).
  - exact FreeBosons_default.
  - exact (Hdefault bosons1 FreeBosons_default).
Defined.

Lemma C3_witness :
  ¬ symmetric skew2 ∧
  FreeBosons ZZ (Some 2) (Some skew2) None None
  = Raise (ValueError
      "the gram_matrix should be a symmetric 2 x 2 matrix, got 0 1;-1 0").
Proof.
  split; [exact skew2_not_symmetric|].
  apply (C3_asymmetric_gram_matrix_rejected rows_str reference_naming
           ZZ (Some 2) skew2 None None).
  exact skew2_not_symmetric.
Defined.

Lemma C4_witness :
  MatrixSpace_contains ZeroRing 1 1 one1 = false ∧
  FreeBosons ZeroRing None (Some one1) None None
  = Raise (ValueError
      "the gram_matrix should be a symmetric 1 x 1 matrix, got 1") ∧
  nrows one1 ≠ 2 ∧
  FreeBosons ZZ (Some 2) (Some one1) None None
  = Raise (ValueError
      "the gram_matrix should be a symmetric 2 x 2 matrix, got 1").
Proof.
  split; [vm_compute; reflexivity|]. split.
  - apply (proj1 (C4_gram_matrix_outside_matrix_space_rejected rows_str
                    reference_naming ZeroRing None one1 None None)).
    vm_compute. reflexivity.
  - split; [simpl; lia|].
    apply (proj2 (C4_gram_matrix_outside_matrix_space_rejected rows_str
                    reference_naming ZZ (Some 2) one1 None None) 2).
    left. simpl. lia.
Defined.

Lemma C5_witness :
  FreeBosons ZZ (Some 2) (Some gram2) None None = OK bosons2 ∧
  NoDup (index_set (super bosons2)) ∧
  size (s_coeff (super bosons2)) = 2 * 2 ∧
  (∃ (r c : nat) (x : Z),
     IndexSet_rank (index_set (super bosons2)) (LStr "alpha0") = OK r ∧
     index_set (super bosons2) !! r = Some (LStr "alpha0") ∧
     IndexSet_rank (index_set (super bosons2)) (LStr "alpha1") = OK c ∧
     index_set (super bosons2) !! c = Some (LStr "alpha1") ∧
     Matrix_getitem gram2 r c = OK x ∧
     s_coeff (super bosons2) !! (LStr "alpha0", LStr "alpha1")
     = Some {[1%Z := {[("K", 0%Z) := x]}]}).
Proof.
  split; [exact FreeBosons_gram2|]. split; [exact NoDup_alpha01|].
  destruct (C5_table_entries rows_str reference_naming ZZ (Some 2)
              (Some gram2) None None bosons2 FreeBosons_gram2 NoDup_alpha01)
    as (Hsize & Hentry & _).
  split; [exact Hsize|].
  apply Hentry.
  - change (LStr "alpha0" ∈ [LStr "alpha0"; LStr "alpha1"]).
    apply elem_of_cons. left. reflexivity.
  - change (LStr "alpha1" ∈ [LStr "alpha0"; LStr "alpha1"]).
    apply elem_of_cons. right. apply elem_of_cons. left. reflexivity.
Defined.

Lemma C6_witness :
  FreeBosons ZZ (Some 2) (Some gram2) None None = OK bosons2 ∧
  s_coeff (super bosons2) !! (LStr "alpha0", LStr "alpha1")
  = s_coeff (super bosons2) !! (LStr "alpha1", LStr "alpha0").
Proof.
  split; [exact FreeBosons_gram2|].
  apply (C6_table_symmetric rows_str reference_naming ZZ (Some 2)
           (Some gram2) None None bosons2 FreeBosons_gram2).
Defined.

Lemma C8_witness :
  FreeBosons_in gram2_store ZZ (Some 2) (Some 0) None None
  = OK (bosons2_in_store, gram2_store) ∧
  Forall (λ a, assigns_to 0 a = false) calls_and_other_assignment ∧
  (play reference_gens_str calls_and_other_assignment bosons2_in_store
     gram2_store).1.2 = bosons2_in_store ∧
  Forall2 (answers 0) calls_and_other_assignment
    (play reference_gens_str calls_and_other_assignment bosons2_in_store
       gram2_store).1.1 ∧
  (play reference_gens_str calls_and_other_assignment bosons2_in_store
     gram2_store).2 !! 0 = Some gram2.
Proof.
  assert (FreeBosons_in gram2_store ZZ (Some 2) (Some 0) None None
          = OK (bosons2_in_store, gram2_store)) as Hc
    by (vm_compute; reflexivity).
  assert (Forall (λ a, assigns_to 0 a = false) calls_and_other_assignment)
    as Hno by (repeat constructor).
  pose proof (C8_table_fixed_gram_matrix_by_reference rows_str
                reference_naming reference_gens_str gram2_store ZZ (Some 2)
                (Some 0) None None bosons2_in_store gram2_store
                calls_and_other_assignment Hc) as H.
  cbv zeta in H.
  destruct H as (_ & _ & _ & _ & Hself & _ & _ & Hans & _ & Hlast).
  split_and!.
  - exact Hc.
  - exact Hno.
  - exact Hself.
  - exact Hans.
  - exact (Hlast Hno).
Defined.

(** The claim as it stands in the spec fails: an assignment into the
    supplied matrix, here [M[0, 0] = 7] on the matrix [[2, 1], [1, 3]] after
    the construction, shows through [gram_matrix()], which answers the
    reference of that same matrix, while the table keeps the coefficient [2]
    read by the constructor. *)
Lemma C8_counterexample :
  FreeBosons_in gram2_store ZZ (Some 2) (Some 0) None None
  = OK (bosons2_in_store, gram2_store) ∧
  (play reference_gens_str assignment_then_call bosons2_in_store
     gram2_store).1.1 = [Answer_none; Answer_matrix 0] ∧
  (play reference_gens_str assignment_then_call bosons2_in_store
     gram2_store).2 !! 0 = Some (Matrix_setitem gram2 0 0 7%Z) ∧
  Matrix_getitem (Matrix_setitem gram2 0 0 7%Z) 0 0 = OK 7%Z ∧
  Matrix_getitem gram2 0 0 = OK 2%Z ∧
  s_coeff (instance_super
             (play reference_gens_str assignment_then_call bosons2_in_store
                gram2_store).1.2) !! (LStr "alpha0", LStr "alpha0")
  = Some (weight_one 2%Z) ∧
  ¬ (∀ acts : list action,
       (play reference_gens_str acts bosons2_in_store gram2_store).2
         !! _gram_matrix_ref bosons2_in_store = Some gram2).
Proof.
  split_and!; try (vm_compute; reflexivity).
  intros H. specialize (H assignment_then_call).
  apply (f_equal (λ o, (λ M, entry M 0 0) <$> o)) in H.
  vm_compute in H. discriminate H.
Qed.

Lemma C10_witness :
  FreeBosons ZZ (Some 2) (Some gram2) (Some (NamesStr "x,y")) None
  = OK {| super :=
            GradedLieConformalAlgebra_init ZZ
              (s_coeff (super (bosons2_named "x" "y")))
              (Some ["x"; "y"]) None [LStr "x"; LStr "y"] ["K"];
          _gram_matrix := gram2 |} ∧
  central_elements (super (bosons2_named "x" "y")) = ["K"] ∧
  ∀ k v, s_coeff (super (bosons2_named "x" "y")) !! k = Some v →
         ∃ x : Z, v = {[1%Z := {[("K", 0%Z) := x]}]}.
Proof.
  assert (FreeBosons ZZ (Some 2) (Some gram2) (Some (NamesStr "x,y")) None
          = OK (bosons2_named "x" "y")) as Hinit by (vm_compute; reflexivity).
  split; [exact Hinit|].
  apply (C10_central_label_K rows_str reference_naming ZZ (Some 2)
           (Some gram2) (Some (NamesStr "x,y")) None _ Hinit).
Defined.

(** ** Further properties at concrete inputs *)

Example FreeBosons_gram2_padded :
  FreeBosons ZZ (Some 2) (Some gram2_padded) None None = OK bosons2_padded.
Proof. vm_compute. reflexivity. Qed.

Example FreeBosons_skew2 :
  FreeBosons ZZ (Some 2) (Some skew2) None None
  = Raise (ValueError
      "the gram_matrix should be a symmetric 2 x 2 matrix, got 0 1;-1 0").
Proof. vm_compute. reflexivity. Qed.

Lemma X1_witness :
  FreeBosons ZZ (Some 2) (Some gram2) None None = OK bosons2 ∧
  symmetric gram2 ∧ nrows gram2 = 2 ∧ ncols gram2 = 2 ∧
  _gram_matrix bosons2 = gram2.
Proof.
  split; [exact FreeBosons_gram2|].
  destruct (X1_supplied_success_means_valid rows_str reference_naming ZZ
              (Some 2) gram2 None None bosons2 FreeBosons_gram2)
    as (H1 & H2 & H3 & _ & H5).
  split; [exact H1|]. split; [exact H2|]. split; [exact H3|exact H5].
Defined.

Lemma X2_witness :
  ∃ obj, FreeBosons ZZ None None None None = OK obj ∧
         index_set (super obj) = [LStr "alpha"] ∧
         ∀ i j : Label, i ∈ [LStr "alpha"] → j ∈ [LStr "alpha"] →
           s_coeff (super obj) !! (i, j)
           = Some {[1%Z := {[("K", 0%Z) :=
                      if decide (i = j) then 1%Z else 0%Z]}]}.
Proof.
  apply (X2_default_table_orthonormal rows_str reference_naming ZZ None None
           None (Some ["alpha"]) [LStr "alpha"]).
  - vm_compute. reflexivity.
  - reflexivity.
Defined.

Lemma X3_witness :
  0 < nrows (_gram_matrix bosons2) ∧ 1 < ncols (_gram_matrix bosons2) ∧
  s_coeff (super bosons2) !! (LStr "alpha0", LStr "alpha1")
  = Some {[1%Z := {[("K", 0%Z) := entry (_gram_matrix bosons2) 0 1]}]}.
Proof.
  apply (X3_table_entry_by_position rows_str reference_naming ZZ (Some 2)
           (Some gram2) None None bosons2 0 1 (LStr "alpha0") (LStr "alpha1")
           FreeBosons_gram2 NoDup_alpha01); reflexivity.
Defined.

Lemma X4_witness :
  Matrix_eq (_gram_matrix bosons2) (_gram_matrix bosons2_padded).
Proof.
  apply (X4_table_determines_gram_matrix rows_str reference_naming ZZ ZZ
           (Some 2) (Some 2) (Some gram2) (Some gram2_padded) None None
           None None bosons2 bosons2_padded).
  - exact FreeBosons_gram2.
  - exact FreeBosons_gram2_padded.
  - reflexivity.
  - exact NoDup_alpha01.
  - reflexivity.
  - reflexivity.
  - reflexivity.
Defined.

Lemma X6_witness :
  FreeBosons ZZ None None None None = OK bosons1 ∧
  ∃ l : list string,
    latex_names (super bosons1) = Some (l ++ ["K"]) ∧
    length l = nrows (_gram_matrix bosons1) ∧
    ∀ i : nat, i < length l →
      l !! i = Some ("\alpha_{" +:+ pretty i +:+ "}").
Proof.
  split; [exact FreeBosons_default|].
  exact (X6_latex_names rows_str reference_naming ZZ None None None None
           bosons1 FreeBosons_default).
Defined.

Lemma X7_witness :
  ('(n, G) ← resolve_gram_matrix rows_str ZZ (Some 2) (Some skew2);
   '(_, ix) ← reference_naming (resolve_names n None None).1 None n;
   bosondict G ix)
  = Raise (ValueError
      "the gram_matrix should be a symmetric 2 x 2 matrix, got 0 1;-1 0") ∧
  FreeBosons ZZ (Some 2) (Some skew2) None None
  = Raise (ValueError
      "the gram_matrix should be a symmetric 2 x 2 matrix, got 0 1;-1 0") ∧
  ((∃ M, Some skew2 = Some M ∧
         ValueError
           "the gram_matrix should be a symmetric 2 x 2 matrix, got 0 1;-1 0"
         = gram_matrix_error rows_str 2 M ∧
         (MatrixSpace_contains ZZ 2 2 M = false ∨ is_symmetric M = false)) ∨
   reference_naming (resolve_names 2 None None).1 None 2
   = Raise (ValueError
       "the gram_matrix should be a symmetric 2 x 2 matrix, got 0 1;-1 0") ∨
   (∃ names' ix,
      reference_naming (resolve_names 2 None None).1 None 2
      = OK (names', ix) ∧
      2 < length ix ∧
      ValueError
        "the gram_matrix should be a symmetric 2 x 2 matrix, got 0 1;-1 0"
      = IndexError "matrix index out of range")).
Proof.
  assert (('(n, G) ← resolve_gram_matrix rows_str ZZ (Some 2) (Some skew2);
           '(_, ix) ← reference_naming (resolve_names n None None).1 None n;
           bosondict G ix)
          = Raise (ValueError
              "the gram_matrix should be a symmetric 2 x 2 matrix, got 0 1;-1 0"))
    as Hpre by (vm_compute; reflexivity).
  split; [exact Hpre|].
  exact (X7_failure_modes_before_parent rows_str reference_naming ZZ (Some 2)
           (Some skew2) None None _ Hpre).
Defined.

Lemma X8_witness :
  (∃ a b, "sage_root/build/pkgs/gap" = a +:+ "/build/pkgs/" +:+ b) ∧
  ignore "sage_root/build/pkgs/gap" [".git"; "spkg-install.in"; "src"]
  = ["src"].
Proof.
  assert (∃ a b, "sage_root/build/pkgs/gap" = a +:+ "/build/pkgs/" +:+ b)
    as Hsub by (exists "sage_root", "gap"; reflexivity).
  split; [exact Hsub|].
  apply (proj2 (X8_ignore_in_package_directories "sage_root/build/pkgs/gap")).
  exact Hsub.
Defined.

Lemma sage_root_not_a_package_directory :
  ¬ ∃ a b, "sage_root" = a +:+ "/build/pkgs/" +:+ b.
Proof.
  intros H. apply (fnmatch_contains "/build/pkgs/") in H; [|reflexivity].
  vm_compute in H. discriminate H.
Qed.

Lemma X9_witness :
  (¬ ∃ a b, "sage_root" = a +:+ "/build/pkgs/" +:+ b) ∧
  ignore "sage_root" ["src"; ".git"; "build"; "logs"] = [".git"; "logs"] ∧
  sublist (ignore "sage_root" ["src"; ".git"; "build"; "logs"])
    ["src"; ".git"; "build"; "logs"] ∧
  ("src" ∉ ignore "sage_root" ["src"; ".git"; "build"; "logs"]).
Proof.
  split; [exact sage_root_not_a_package_directory|].
  split; [vm_compute; reflexivity|].
  destruct (X9_ignore_elsewhere "sage_root" ["src"; ".git"; "build"; "logs"]
              sage_root_not_a_package_directory) as (_ & Hsub & Hsrc & _).
  split; [exact Hsub|exact Hsrc].
Defined.

Lemma X10_witness :
  no_home_environ !! "HOME" = None ∧
  sample_create_root no_home_environ (start fresh_world)
  = (Throw (TypeError
       "expected str, bytes or os.PathLike object, not NoneType"),
     start fresh_world) ∧
  sample_run no_home_environ 0 false (start fresh_world)
  = (Throw (TypeError
       "expected str, bytes or os.PathLike object, not NoneType"),
     start fresh_world).
Proof.
  split; [vm_compute; reflexivity|].
  apply (X10_home_unset_is_a_TypeError Files "/pkg" "Linux"
           "x86_64" no_home_environ (λ s, s) sample_exists sample_read
           sample_copytree sample_copyfile (sample_system 0) sample_super_run
           (start fresh_world)).
  vm_compute. reflexivity.
Defined.

Lemma X11_witness :
  sample_create_root sample_environ (start configured_world)
  = (Return sample_root,
     {| world := configured_world;
        trace := [Open_read "/pkg/VERSION.txt"] |}).
Proof.
  etrans.
  - apply (X11_configured_root_is_reused Files "/pkg" "Linux"
             "x86_64" sample_environ (λ s, s) sample_exists sample_read
             sample_copytree (start configured_world) "/home/u" "10.4");
      vm_compute; reflexivity.
  - vm_compute. reflexivity.
Defined.

Lemma X12_witness :
  sample_create_root sample_environ (start fresh_world)
  = (Return sample_root,
     {| world := copied_world;
        trace := [Open_read "/pkg/VERSION.txt";
                  Copytree "sage_root" sample_root] |}) ∧
  sample_create_root sample_environ
    (start copied_world)
  = (Throw (SetupError
       "the directory SAGE_ROOT=/home/u/.sage/sage-10.4-Linux-x86_64-conda already exists but it is not configured (File exists: /home/u/.sage/sage-10.4-Linux-x86_64-conda). Please either remove it and try again, or install in editable mode (pip install -e)."),
     {| world := copied_world;
        trace := [Open_read "/pkg/VERSION.txt";
                  Copytree "sage_root" sample_root] |}).
Proof.
  split.
  - etrans.
    + apply (X12_unconfigured_root_is_copied Files "/pkg"
               "Linux" "x86_64" sample_environ (λ s, s) sample_exists
               sample_read sample_copytree (start fresh_world) "/home/u"
               "10.4"); vm_compute; reflexivity.
    + vm_compute. reflexivity.
  - etrans.
    + apply (X12_unconfigured_root_is_copied Files "/pkg"
               "Linux" "x86_64" sample_environ (λ s, s) sample_exists
               sample_read sample_copytree
               (start copied_world) "/home/u"
               "10.4"); vm_compute; reflexivity.
    + vm_compute. reflexivity.
Defined.

Example sample_create_root_fresh :
  sample_create_root sample_environ (start fresh_world)
  = (Return sample_root,
     {| world := copied_world;
        trace := [Open_read "/pkg/VERSION.txt";
                  Copytree "sage_root" sample_root] |}).
Proof. vm_compute. reflexivity. Qed.

Lemma X13_witness :
  ∃ home text : string,
    sample_environ !! "HOME" = Some home ∧
    sample_read fresh_world "/pkg/VERSION.txt" = Return text ∧
    Copytree "sage_root" sample_root
    ∈ [Open_read "/pkg/VERSION.txt"; Copytree "sage_root" sample_root].
Proof.
  destruct (X13_location_of_the_root Files "/pkg" "Linux"
              "x86_64" sample_environ (λ s, s) sample_exists sample_read
              sample_copytree _ _ _ sample_create_root_fresh)
    as (home & text & Hhome & Hread & _ & [[Hex _]|Hcopy]).
  - vm_compute in Hex. discriminate Hex.
  - exists home, text. split; [exact Hhome|]. split; [exact Hread|exact Hcopy].
Defined.

Lemma X14_witness :
  sample_run no_conda_environ 0 false (start fresh_world)
  = (Throw (SetupError
       "No conda environment is active. See https://doc.sagemath.org/html/en/installation/conda.html on how to get started."),
     {| world := copied_world;
        trace := [Open_read "/pkg/VERSION.txt";
                  Copytree "sage_root" sample_root] |}).
Proof.
  assert (default "" (no_conda_environ !! "CONDA_PREFIX") = "") as Hconda
    by (vm_compute; reflexivity).
  assert (locate_sage_root Files "/pkg" "Linux" "x86_64"
            no_conda_environ (λ s, s) sample_exists sample_read
            sample_copytree false (start fresh_world)
          = (Return sample_root,
             {| world := copied_world;
                trace := [Open_read "/pkg/VERSION.txt";
                          Copytree "sage_root" sample_root] |})) as Hloc
    by (vm_compute; reflexivity).
  exact (proj1 (X14_no_conda_environment Files "/pkg" "Linux"
                  "x86_64" no_conda_environ (λ s, s) sample_exists
                  sample_read sample_copytree sample_copyfile
                  (sample_system 0) sample_super_run false
                  (start fresh_world) _ sample_root Hconda Hloc)).
Defined.

Lemma X15_witness :
  sample_run sample_environ 1 false (start fresh_world)
  = (Throw (SetupError "configure failed"),
     {| world := copied_world;
        trace := [Open_read "/pkg/VERSION.txt";
                  Copytree "sage_root" sample_root;
                  Print ("Running " +:+ configure_command sample_root); Flush;
                  System (configure_command sample_root);
                  Print "Error: The configure script has failed; this may be caused by missing build prerequisites.";
                  Flush;
                  System (prerequisites_command sample_root)] |}).
Proof.
  etrans.
  - apply (X15_configure_failure Files "/pkg" "Linux" "x86_64"
             sample_environ (λ s, s) sample_exists sample_read sample_copytree
             sample_copyfile (sample_system 1) sample_super_run false
             (start fresh_world)
             {| world := copied_world;
                trace := [Open_read "/pkg/VERSION.txt";
                          Copytree "sage_root" sample_root] |}
             sample_root 1%Z 1%Z copied_world copied_world).
    + vm_compute. discriminate.
    + vm_compute. reflexivity.
    + reflexivity.
    + discriminate.
    + vm_compute. reflexivity.
    + reflexivity.
  - reflexivity.
Defined.

Lemma X16_witness :
  sample_run sample_environ 0 false (start configured_world)
  = (Return (),
     {| world := built_world;
        trace := [Open_read "/pkg/VERSION.txt";
                  Print ("Running " +:+ configure_command sample_root); Flush;
                  System (configure_command sample_root);
                  Copyfile
                    "/home/u/.sage/sage-10.4-Linux-x86_64-conda/pkgs/sage-conf/_sage_conf/_conf.py"
                    "/pkg/_sage_conf/_conf.py";
                  Copyfile
                    "/home/u/.sage/sage-10.4-Linux-x86_64-conda/src/bin/sage-env-config"
                    "/pkg/bin/sage-env-config";
                  Super_run] |}).
Proof.
  etrans.
  - apply (X16_run_completes Files "/pkg" "Linux" "x86_64"
             sample_environ (λ s, s) sample_exists sample_read sample_copytree
             sample_copyfile (sample_system 0) sample_super_run
             (start configured_world)
             {| world := configured_world;
                trace := [Open_read "/pkg/VERSION.txt"] |}
             sample_root 0%Z configured_world
             (("/pkg/_sage_conf/_conf.py", "conf") :: configured_world)
             built_world built_world (Return ())).
    + vm_compute. discriminate.
    + vm_compute. reflexivity.
    + reflexivity.
    + left. reflexivity.
    + vm_compute. reflexivity.
    + vm_compute. reflexivity.
    + reflexivity.
  - vm_compute. reflexivity.
Defined.

Lemma X17_witness :
  sample_run sample_environ 0 true (start editable_world)
  = (Return (),
     {| world := editable_built_world;
        trace := [Print ("Running " +:+ configure_command "/pkg/sage_root");
                  Flush; System (configure_command "/pkg/sage_root");
                  Copyfile "/pkg/sage_root/src/bin/sage-env-config"
                    "/pkg/bin/sage-env-config";
                  Super_run] |}).
Proof.
  etrans.
  - apply (X17_editable_run Files "/pkg" "Linux" "x86_64"
             sample_environ (λ s, s) sample_exists sample_read sample_copytree
             sample_copyfile (sample_system 0) sample_super_run
             (start editable_world) 0%Z editable_world editable_built_world
             editable_built_world (Return ())).
    + vm_compute. discriminate.
    + reflexivity.
    + left. reflexivity.
    + vm_compute. reflexivity.
    + reflexivity.
  - vm_compute. reflexivity.
Defined.

Example sample_run_editable :
  sample_run sample_environ 0 true (start editable_world)
  = (Return (),
     {| world := editable_built_world;
        trace := [Print ("Running " +:+ configure_command "/pkg/sage_root");
                  Flush; System (configure_command "/pkg/sage_root");
                  Copyfile "/pkg/sage_root/src/bin/sage-env-config"
                    "/pkg/bin/sage-env-config";
                  Super_run] |}).
Proof. vm_compute. reflexivity. Qed.

Lemma X18_witness :
  ∃ evs : list event,
    [Print ("Running " +:+ configure_command "/pkg/sage_root");
     Flush; System (configure_command "/pkg/sage_root");
     Copyfile "/pkg/sage_root/src/bin/sage-env-config"
       "/pkg/bin/sage-env-config";
     Super_run] = [] ++ evs ∧
    Super_run ∈ evs.
Proof.
  destruct (X18_inherited_build_comes_last Files "/pkg"
              "Linux" "x86_64" sample_environ (λ s, s) sample_exists
              sample_read sample_copytree sample_copyfile (sample_system 0)
              sample_super_run true _ _ _ sample_run_editable)
    as (evs & Htrace & _ & Hlast & _).
  exists evs. split; [exact Htrace|]. apply Hlast. reflexivity.
Defined.
